(** * arch/arm/mach-msm/clock-debug.c: the debugfs front end of the MSM clock
      driver, embedded as programs over the calls it makes.

    The file is a thin layer over code that lives elsewhere (the clock
    framework of clock.c, the per-clock [struct clk_ops] tables, debugfs,
    printk).  Each function of the file becomes a value of [prog]: a finite
    tree whose nodes are the calls the function makes, in the order it makes
    them, and whose branches are selected by what those calls return.  A
    handler for the calls turns a program into a run: its result, the final
    state of the environment and the list of calls issued. *)

From Stdlib Require Import ZArith List String Ascii Bool Lia.
Import ListNotations.
Open Scope string_scope.
Open Scope list_scope.
Open Scope Z_scope.

(** ** Data *)

(** A function pointer is the symbol it points to; a null pointer is [None]. *)
Definition fnptr := string.

(** Modelled from the spec: [struct clk_ops] is declared in clock.h; of the
    capability set the spec lists, these are the members this file reaches
    through [clock->ops] itself.  The other operations are reached through
    the framework entry points ([clk_set_rate] and so on). *)
Record clk_ops : Type := {
  is_enabled : option fnptr;
  is_local : option fnptr;
  list_rate : option fnptr
}.

(** Modelled from the spec: [struct clk] is declared in clock.h; the members
    are those read here (the policy flags, the operations, the name and the
    enable reference count of the spec's clock node), as they are when a
    function of this file is entered. *)
Record clk : Type := {
  flags : Z;
  ops : clk_ops;
  dbg_name : string;
  count : Z
}.

(** [struct clk_lookup] of linux/clkdev.h; [lookup_clk] is the member [clk],
    possibly null. *)
Record clk_lookup : Type := {
  dev_id : option string;
  con_id : option string;
  lookup_clk : option clk
}.

(** A [struct dentry *] that is not null. *)
Definition dentry := N.

(** [!p] for a pointer. *)
Definition is_null {A : Type} (p : option A) : bool :=
  match p with None => true | Some _ => false end.

Inductive file_ops : Type :=
| clock_rate_fops
| clock_measure_fops
| clock_enable_fops
| clock_local_fops
| clock_showall_fops
| list_rates_fops.

(** What [clk_get_sys] hands back: a pointer (null or not) or an
    [ERR_PTR] carrying a negative errno. *)
Inductive clk_ptr : Type :=
| PtrOk (c : option clk)
| PtrErr (errno : Z).

Definition IS_ERR (p : clk_ptr) : bool :=
  match p with PtrErr _ => true | PtrOk _ => false end.

Inductive printk_arg : Type :=
| arg_int (z : Z)
| arg_str (s : string).

(** ** Integer types of the target (32-bit ARM) *)

Definition wrap (bits : Z) (z : Z) : Z := z mod 2 ^ bits.

(** [unsigned], [unsigned long] and [size_t] are 32 bits wide, [u64] is 64.
    The rate parameter of [clk_set_rate], [clk_set_min_rate] and
    [clk_set_max_rate] is an [unsigned long]. *)
Definition to_unsigned (z : Z) : Z := wrap 32 z.
Definition to_ulong (z : Z) : Z := wrap 32 z.
Definition to_u64 (z : Z) : Z := wrap 64 z.

(** [int]: two's complement on 32 bits. *)
Definition to_int (z : Z) : Z := wrap 32 (z + 2 ^ 31) - 2 ^ 31.

Definition ENOMEM : Z := 12.
Definition S_IRUGO : Z := 292.  (* 0444 *)
Definition S_IWUSR : Z := 128.  (* 0200 *)
Definition KERN_ERR : string := "<3>".
Definition KERN_INFO : string := "<6>".

Definition nl : string := String "010" EmptyString.
Definition tab : string := String "009" EmptyString.

(** ** Calls that leave this file *)

Inductive call : Type :=
| clk_set_max_rate (c : clk) (rate : Z)
| clk_set_min_rate (c : clk) (rate : Z)
| clk_set_rate (c : clk) (rate : Z)
| clk_get_rate (c : option clk)
| clk_set_parent (c : option clk) (parent : clk)
| clk_enable (c : clk)
| clk_disable (c : clk)
| clk_get_sys (dev con : string)
| ops_is_enabled (f : fnptr) (c : clk)
| ops_is_local (f : fnptr) (c : clk)
| ops_list_rate (f : fnptr) (c : clk) (n : Z)
| seq_printf (fmt : string) (args : list printk_arg)
| printk (fmt : string) (args : list printk_arg)
| debugfs_create_dir (name : string) (parent : option dentry)
| debugfs_create_u32 (name : string) (mode : Z) (parent : option dentry)
| debugfs_create_file (name : string) (mode : Z) (parent : option dentry)
    (data : option clk) (fops : file_ops)
| debugfs_remove_recursive (d : dentry)
| kzalloc (size : Z).

(** Modelled from the spec: the result type of the [is_local] member, which
    clock.h declares; the spec gives [is_local(node) -> bool]. *)
Definition is_local_result : Type := bool.

(** The type of what each call returns.  An integer result is the value of
    the C result in its C type; a [struct dentry *] is [None] when null;
    [kzalloc] tells whether it returned memory. *)
Definition ans (c : call) : Type :=
  match c with
  | clk_set_max_rate _ _ | clk_set_min_rate _ _ | clk_set_rate _ _ => Z
  | clk_get_rate _ => Z
  | clk_set_parent _ _ => Z
  | clk_enable _ => Z
  | clk_disable _ => unit
  | clk_get_sys _ _ => clk_ptr
  | ops_is_enabled _ _ => Z
  | ops_is_local _ _ => is_local_result
  | ops_list_rate _ _ _ => Z
  | seq_printf _ _ => Z
  | printk _ _ => unit
  | debugfs_create_dir _ _ => option dentry
  | debugfs_create_u32 _ _ _ => option dentry
  | debugfs_create_file _ _ _ _ _ => option dentry
  | debugfs_remove_recursive _ => unit
  | kzalloc _ => bool
  end.

(** ** Programs *)

(** Ways a function of this file can leave defined behaviour. *)
Inductive fault : Type :=
| NullCall (member : string)     (* call through a null function pointer *)
| OutOfBounds (index : Z)        (* store outside the 1024 bytes of msm_enabled *)
| Unterminated.                  (* string read past an array with no NUL in it *)

Inductive prog (R : Type) : Type :=
| Ret (r : R)
| Oops (f : fault)
| Vis (c : call) (k : ans c -> prog R).

Arguments Ret {R} r.
Arguments Oops {R} f.
Arguments Vis {R} c k.

Fixpoint bind {A B : Type} (m : prog A) (f : A -> prog B) : prog B :=
  match m with
  | Ret a => f a
  | Oops e => Oops e
  | Vis c k => Vis c (fun x => bind (k x) f)
  end.

Definition do (c : call) : prog (ans c) := Vis c Ret.

Declare Scope prog_scope.
Delimit Scope prog_scope with prog.
Notation "x <- m ;; k" := (bind m (fun x => k))
  (at level 61, m at next level, right associativity) : prog_scope.
Notation "m ;; k" := (bind m (fun _ => k))
  (at level 61, right associativity) : prog_scope.
Open Scope prog_scope.

(** [pr_info(fmt, ...)] is [printk(KERN_INFO fmt, ...)]. *)
Definition pr_info (fmt : string) (args : list printk_arg) : prog unit :=
  do (printk (KERN_INFO ++ fmt)%string args).

(** ** The statics of the file *)

Record globals : Type := {
  measure : option clk;
  debugfs_base : option dentry;
  msm_clocks : list clk_lookup;     (* the num_msm_clocks entries at msm_clocks *)
  msm_enabled : option (list ascii) (* the 1024 bytes at msm_enabled, if any *)
}.

Definition num_msm_clocks (g : globals) : Z :=
  to_unsigned (Z.of_nat (List.length (msm_clocks g))).

Definition boot : globals :=
  {| measure := None; debugfs_base := None; msm_clocks := []; msm_enabled := None |}.

(** ** Rate, measure, enable and is_local attributes *)

Section Flags.

(** The two policy bits of [clk->flags]; their values come from clock.h. *)
Variables CLKFLAG_MIN CLKFLAG_MAX : Z.

Definition has_flag (clock : clk) (bit : Z) : bool :=
  negb (Z.land (flags clock) bit =? 0).

Definition clock_debug_rate_set (data : clk) (val : Z) : prog Z :=
  let clock := data in
  (if has_flag clock CLKFLAG_MAX
   then do (clk_set_max_rate clock (to_ulong val)) ;; Ret tt
   else Ret tt) ;;
  ret <- (if has_flag clock CLKFLAG_MIN
          then do (clk_set_min_rate clock (to_ulong val))
          else do (clk_set_rate clock (to_ulong val))) ;;
  (if negb (ret =? 0)
   then do (printk (KERN_ERR ++ "clk_set%s_rate failed (%d)" ++ nl)%string
              [arg_str (if has_flag clock CLKFLAG_MIN then "_min" else "");
               arg_int ret])
   else Ret tt) ;;
  Ret ret.

End Flags.

(** A [u64 *val] parameter is the value stored at [val] on entry; the
    functions return their status together with the value stored there on
    exit. *)
Definition clock_debug_rate_get (data : clk) (val : Z) : prog (Z * Z) :=
  let clock := data in
  r <- do (clk_get_rate (Some clock)) ;;
  Ret (0, r).

Definition clock_debug_measure_get (g : globals) (data : clk) (val : Z)
  : prog (Z * Z) :=
  let clock := data in
  ret <- do (clk_set_parent (measure g) clock) ;;
  if ret =? 0
  then r <- do (clk_get_rate (measure g)) ;; Ret (ret, r)
  else Ret (ret, val).

Definition clock_debug_enable_set (data : clk) (val : Z) : prog Z :=
  let clock := data in
  if negb (val =? 0)
  then rc <- do (clk_enable clock) ;; Ret rc
  else do (clk_disable clock) ;; Ret 0.

Definition clock_debug_enable_get (data : clk) (val : Z) : prog (Z * Z) :=
  let clock := data in
  enabled <- match is_enabled (ops clock) with
             | Some f => do (ops_is_enabled f clock)
             | None => Ret (if count clock =? 0 then 0 else 1)
             end ;;
  Ret (0, to_u64 enabled).

Definition clock_debug_local_get (data : clk) (val : Z) : prog (Z * Z) :=
  let clock := data in
  match is_local (ops clock) with
  | Some f => b <- do (ops_is_local f clock) ;; Ret (0, if b then 1 else 0)
  | None => Oops (NullCall "is_local")
  end.

(** ** The enabled-clock reports *)

(** The loop condition [clk && clk->ops->is_enabled(clk)] of both reports:
    a null entry is decided without any call; for the others the member
    [is_enabled] is called without a test for null. *)
Definition clk_and_is_enabled (clk : option clk) : prog bool :=
  match clk with
  | None => Ret false
  | Some c =>
    match is_enabled (ops c) with
    | Some f => en <- do (ops_is_enabled f c) ;; Ret (negb (en =? 0))
    | None => Oops (NullCall "is_enabled")
    end
  end.

Fixpoint _clock_debug_print_enabled_loop (l : list clk_lookup) (cnt : Z)
  : prog Z :=
  match l with
  | [] => Ret cnt
  | e :: l' =>
    let clk := lookup_clk e in
    on <- clk_and_is_enabled clk ;;
    match clk, on with
    | Some c, true =>
      pr_info (tab ++ "%s" ++ nl)%string [arg_str (dbg_name c)] ;;
      _clock_debug_print_enabled_loop l' (to_int (cnt + 1))
    | _, _ => _clock_debug_print_enabled_loop l' cnt
    end
  end.

Definition _clock_debug_print_enabled (g : globals) : prog Z :=
  pr_info ("Enabled clocks:" ++ nl)%string [] ;;
  cnt <- _clock_debug_print_enabled_loop (msm_clocks g) 0 ;;
  (if negb (cnt =? 0)
   then pr_info ("Enabled clock count: %d" ++ nl)%string [arg_int cnt]
   else pr_info ("No clocks enabled." ++ nl)%string []) ;;
  Ret cnt.

Definition clock_showall (g : globals) (val : Z) : prog (Z * Z) :=
  cnt <- _clock_debug_print_enabled g ;;
  Ret (0, to_u64 cnt).

(** *** Stores into the buffer at [msm_enabled] *)

Fixpoint poke (buf : list ascii) (i : nat) (b : ascii) : list ascii :=
  match buf, i with
  | [], _ => []
  | _ :: t, O => b :: t
  | h :: t, S j => h :: poke t j b
  end.

(** [msm_enabled[i] = b], for an index taken as an unsigned number. *)
Definition store (buf : list ascii) (i : Z) (b : ascii) : prog (list ascii) :=
  if (0 <=? i) && (i <? Z.of_nat (List.length buf))
  then Ret (poke buf (Z.to_nat i) b)
  else Oops (OutOfBounds i).

Fixpoint store_bytes (buf : list ascii) (off : Z) (bytes : list ascii)
  : prog (list ascii) :=
  match bytes with
  | [] => Ret buf
  | b :: bs => buf' <- store buf off b ;; store_bytes buf' (off + 1) bs
  end.

(** [snprintf(msm_enabled + off, n, ...)] where the formatted text is [out]:
    at most [n - 1] characters of it are stored, then a NUL; the result is
    the length of [out], truncated or not. *)
Definition snprintf (buf : list ascii) (off n : Z) (out : string)
  : prog (list ascii * Z) :=
  buf' <- (if 0 <? n
           then store_bytes buf off
                  (firstn (Z.to_nat (n - 1)) (list_ascii_of_string out) ++ [zero])
           else Ret buf) ;;
  Ret (buf', to_int (Z.of_nat (String.length out))).

Definition strlen (s : string) : Z := to_unsigned (Z.of_nat (String.length s)).

Definition memset_zero (buf : list ascii) (n : nat) : list ascii :=
  repeat zero n ++ skipn n buf.

(** The text a [%s] conversion reads at the start of the buffer. *)
Fixpoint cstring (buf : list ascii) : option string :=
  match buf with
  | [] => None
  | b :: t =>
    if Ascii.eqb b zero then Some EmptyString
    else option_map (String b) (cstring t)
  end.

(** The locals [size] and [cnt] and the contents of the buffer. *)
Record scan : Type := {
  scan_buf : list ascii;
  scan_size : Z;
  scan_cnt : Z
}.

Fixpoint clock_debug_print_enabled_loop (l : list clk_lookup) (st : scan)
  : prog scan :=
  match l with
  | [] => Ret st
  | e :: l' =>
    let clk := lookup_clk e in
    on <- clk_and_is_enabled clk ;;
    st' <- match clk, on with
           | Some c, true =>
             r <- snprintf (scan_buf st) (scan_size st)
                    (to_unsigned (strlen (dbg_name c) + 2))
                    (dbg_name c ++ ", ")%string ;;
             let ret := to_unsigned (snd r) in
             Ret {| scan_buf := fst r;
                    scan_size := to_unsigned (scan_size st + ret - 1);
                    scan_cnt := to_unsigned (scan_cnt st + 1) |}
           | _, _ => Ret st
           end ;;
    if scan_size st' >? 1000 then Ret st'
    else clock_debug_print_enabled_loop l' st'
  end.

Definition clock_debug_print_enabled (g : globals) : prog globals :=
  let fn := "clock_debug_print_enabled" in
  match msm_enabled g with
  | None =>
    pr_info ("[%s] No memory to debug clock" ++ nl)%string [arg_str fn] ;;
    Ret g
  | Some buf =>
    st <- clock_debug_print_enabled_loop (msm_clocks g)
            {| scan_buf := memset_zero buf 1024; scan_size := 0; scan_cnt := 0 |} ;;
    buf' <- store (scan_buf st) (to_unsigned (scan_size st - 1)) zero ;;
    (if negb (scan_cnt st =? 0)
     then match cstring buf' with
          | Some s =>
            pr_info ("enabled clk %d: %s" ++ nl)%string
              [arg_int (to_int (scan_cnt st)); arg_str s]
          | None => Oops Unterminated
          end
     else pr_info ("[%s] No clocks enabled." ++ nl)%string [arg_str fn]) ;;
    Ret {| measure := measure g; debugfs_base := debugfs_base g;
           msm_clocks := msm_clocks g; msm_enabled := Some buf' |}
  end.

(** ** Initialisation and registration *)

Definition clock_debug_init (g : globals) (clocks : list clk_lookup)
  : prog (Z * globals) :=
  base <- do (debugfs_create_dir "clk" None) ;;
  let g1 := {| measure := measure g; debugfs_base := base;
               msm_clocks := msm_clocks g; msm_enabled := msm_enabled g |} in
  match base with
  | None => Ret (- ENOMEM, g1)
  | Some d =>
    u <- do (debugfs_create_u32 "debug_suspend" (Z.lor S_IRUGO S_IWUSR) base) ;;
    match u with
    | None => do (debugfs_remove_recursive d) ;; Ret (- ENOMEM, g1)
    | Some _ =>
      m <- do (clk_get_sys "debug" "measure") ;;
      let ret := match m with PtrErr e => to_int e | PtrOk _ => 0 end in
      let probe := match m with PtrErr _ => None | PtrOk c => c end in
      do (debugfs_create_file "showall" S_IRUGO base None clock_showall_fops) ;;
      mem <- do (kzalloc 1024) ;;
      Ret (ret,
           {| measure := probe; debugfs_base := base; msm_clocks := clocks;
              msm_enabled := if mem then Some (repeat zero 1024) else None |})
    end
  end.

Section Ctype.

(** [tolower] of linux/ctype.h. *)
Variable tolower : ascii -> ascii.

Definition string_map (f : ascii -> ascii) (s : string) : string :=
  string_of_list_ascii (map f (list_ascii_of_string s)).

(** [strncpy(temp, clock->dbg_name, ARRAY_SIZE(temp)-1)] into the
    uninitialised [char temp[50]], then the loop that lowers [temp] up to
    its NUL.  The copy brings a NUL only when the name has fewer than 49
    characters. *)
Definition lowered_name (name : string) : prog string :=
  if Z.of_nat (String.length name) <? 49
  then Ret (string_map tolower name)
  else Oops Unterminated.

Definition clock_debug_add (g : globals) (clock : clk) : prog Z :=
  match debugfs_base g with
  | None => Ret (- ENOMEM)
  | Some base =>
    temp <- lowered_name (dbg_name clock) ;;
    clk_dir <- do (debugfs_create_dir temp (Some base)) ;;
    match clk_dir : option dentry with
    | None => Ret (- ENOMEM)
    | Some dir =>
      let error := (do (debugfs_remove_recursive dir) ;; Ret (- ENOMEM)) in
      let file name mode fops : prog (option dentry) :=
        do (debugfs_create_file name mode (Some dir) (Some clock) fops) in
      f1 <- file "rate" (Z.lor S_IRUGO S_IWUSR) clock_rate_fops ;;
      if is_null f1 then error else
      f2 <- file "enable" (Z.lor S_IRUGO S_IWUSR) clock_enable_fops ;;
      if is_null f2 then error else
      f3 <- file "is_local" S_IRUGO clock_local_fops ;;
      if is_null f3 then error else
      bad <- match measure g with
             | None => Ret false
             | Some m =>
               ret <- do (clk_set_parent (Some m) clock) ;;
               if ret =? 0
               then f4 <- file "measure" S_IRUGO clock_measure_fops ;;
                    Ret (is_null f4)
               else Ret false
             end ;;
      if (bad : bool) then error else
      bad' <- match list_rate (ops clock) with
              | Some _ =>
                f5 <- file "list_rates" S_IRUGO list_rates_fops ;;
                Ret (is_null f5)
              | None => Ret false
              end ;;
      if (bad' : bool) then error else Ret 0
    end
  end.

End Ctype.

(** ** The list_rates file *)

(** [while ((rate = clock->ops->list_rate(clock, i++)) >= 0) seq_printf(...)].
    The loop ends when the clock's own enumeration says so; [fuel] bounds
    the number of iterations followed, and [None] is a loop that was still
    running when it ran out. *)
Fixpoint list_rates_show_loop (fuel : nat) (clock : clk) (i : Z)
  : prog (option Z) :=
  match fuel with
  | O => Ret None
  | S fuel' =>
    match list_rate (ops clock) with
    | None => Oops (NullCall "list_rate")
    | Some f =>
      rate <- do (ops_list_rate f clock i) ;;
      if 0 <=? rate
      then do (seq_printf ("%d" ++ nl)%string [arg_int rate]) ;;
           list_rates_show_loop fuel' clock (to_int (i + 1))
      else Ret (Some 0)
    end
  end.

Definition list_rates_show (fuel : nat) (clock : clk) : prog (option Z) :=
  list_rates_show_loop fuel clock 0.

(** ** Running a program *)

Record run (W R : Type) : Type := {
  outcome : fault + R;
  final : W;
  calls : list call
}.

Arguments outcome {W R} r.
Arguments final {W R} r.
Arguments calls {W R} r.

Definition returned {W R : Type} (r : run W R) : option R :=
  match outcome r with inr x => Some x | inl _ => None end.

Section Exec.

(** The code outside this file: a state [W] and, for each call, what it
    returns and the state it leaves. *)
Variable W : Type.
Variable handle : forall c : call, W -> ans c * W.

Fixpoint exec {R : Type} (p : prog R) (w : W) : run W R :=
  match p with
  | Ret r => {| outcome := inr r; final := w; calls := [] |}
  | Oops f => {| outcome := inl f; final := w; calls := [] |}
  | Vis c k =>
    let aw := handle c w in
    let r := exec (k (fst aw)) (snd aw) in
    {| outcome := outcome r; final := final r; calls := c :: calls r |}
  end.

(** Two threads, each running one program, on one processor at a time:
    [sched] names the thread that makes the next call ([true] the first,
    [false] the second).  A thread named when it has already finished lets
    the turn pass; when the schedule is used up the first thread runs to its
    end, then the second. *)
Fixpoint interleave {A B : Type} (sched : list bool) (p1 : prog A)
  (p2 : prog B) (w : W) : (fault + A) * (fault + B) * W :=
  match sched with
  | [] =>
    let r1 := exec p1 w in
    let r2 := exec p2 (final r1) in
    (outcome r1, outcome r2, final r2)
  | true :: s =>
    match p1 with
    | Vis c k => let aw := handle c w in interleave s (k (fst aw)) p2 (snd aw)
    | _ => interleave s p1 p2 w
    end
  | false :: s =>
    match p2 with
    | Vis c k => let aw := handle c w in interleave s p1 (k (fst aw)) (snd aw)
    | _ => interleave s p1 p2 w
    end
  end.

End Exec.

Arguments exec {W} handle {R} p w.
Arguments interleave {W} handle {A B} sched p1 p2 w.

(** ** Properties of all the calls a program can make *)

(** [quiet P p]: whatever the calls return, [p] only makes calls that
    satisfy [P]. *)
Fixpoint quiet {R : Type} (P : call -> Prop) (p : prog R) : Prop :=
  match p with
  | Ret _ => True
  | Oops _ => True
  | Vis c k => P c /\ forall a, quiet P (k a)
  end.

Definition is_reparent (c : call) : bool :=
  match c with clk_set_parent _ _ => true | _ => false end.

Definition is_measure_file (c : call) : bool :=
  match c with
  | debugfs_create_file _ _ _ _ clock_measure_fops => true
  | debugfs_create_file name _ _ _ _ => String.eqb name "measure"
  | _ => false
  end.

(** ** A reference environment

    A small clock tree against which the programs can be run: the clock
    named "measure" is the probe, its rate is the rate of the clock it is
    parented to, and "ebi1_clk" cannot be routed to it. *)
Module Sim.

Definition CLKFLAG_MIN : Z := 1024.  (* 0x00000400 *)
Definition CLKFLAG_MAX : Z := 2048.  (* 0x00000800 *)

Definition tolower (a : ascii) : ascii :=
  let n := N_of_ascii a in
  if ((65 <=? n) && (n <=? 90))%N then ascii_of_N (n + 32) else a.

Record world : Type := {
  probe : option clk;            (* what clkdev knows as ("debug", "measure") *)
  parent : option string;        (* the clock the probe is parented to *)
  running : list string;         (* the clocks that are on *)
  rates : list (string * Z);
  next_dentry : N
}.

Fixpoint rate_of (rs : list (string * Z)) (name : string) : Z :=
  match rs with
  | [] => 0
  | (n, r) :: t => if String.eqb n name then r else rate_of t name
  end.

Definition is_running (w : world) (name : string) : bool :=
  existsb (String.eqb name) (running w).

Definition with_rate (w : world) (name : string) (r : Z) : world :=
  {| probe := probe w; parent := parent w; running := running w;
     rates := (name, r) :: rates w; next_dentry := next_dentry w |}.

Definition with_parent (w : world) (p : option string) : world :=
  {| probe := probe w; parent := p; running := running w;
     rates := rates w; next_dentry := next_dentry w |}.

Definition with_running (w : world) (l : list string) : world :=
  {| probe := probe w; parent := parent w; running := l;
     rates := rates w; next_dentry := next_dentry w |}.

Definition fresh (w : world) : option dentry * world :=
  (Some (next_dentry w),
   {| probe := probe w; parent := parent w; running := running w;
      rates := rates w; next_dentry := N.succ (next_dentry w) |}).

Definition EINVAL : Z := 22.
Definition EPERM : Z := 1.
Definition ENOENT : Z := 2.
Definition EIO : Z := 5.

Definition handle (c : call) : world -> ans c * world :=
  match c as c0 return world -> ans c0 * world with
  | clk_set_max_rate k r => fun w =>
      (if rate_of (rates w) (dbg_name k) <? r then 0 else - EPERM, w)
  | clk_set_min_rate k r => fun w =>
      if r <? 50 then (- EINVAL, w) else (0, with_rate w (dbg_name k) r)
  | clk_set_rate k r => fun w => (0, with_rate w (dbg_name k) r)
  | clk_get_rate None => fun w => (0, w)
  | clk_get_rate (Some k) => fun w =>
      (if String.eqb (dbg_name k) "measure"
       then match parent w with
            | Some p => rate_of (rates w) p
            | None => 0
            end
       else rate_of (rates w) (dbg_name k), w)
  | clk_set_parent None _ => fun w => (- EINVAL, w)
  | clk_set_parent (Some k) p => fun w =>
      if negb (String.eqb (dbg_name k) "measure")
         || String.eqb (dbg_name p) "ebi1_clk"
      then (- EINVAL, w)
      else (0, with_parent w (Some (dbg_name p)))
  | clk_enable k => fun w =>
      if String.eqb (dbg_name k) "pll4_clk" then (- EIO, w)
      else (0, with_running w (dbg_name k :: running w))
  | clk_disable k => fun w =>
      (tt, with_running w
             (filter (fun n => negb (String.eqb n (dbg_name k))) (running w)))
  | clk_get_sys dev con => fun w =>
      (if String.eqb dev "debug" && String.eqb con "measure"
       then match probe w with
            | Some p => PtrOk (Some p)
            | None => PtrErr (- ENOENT)
            end
       else PtrErr (- ENOENT), w)
  | ops_is_enabled _ k => fun w =>
      (if is_running w (dbg_name k) then 1 else 0, w)
  | ops_is_local _ k => fun w => (negb (String.eqb (dbg_name k) "ebi1_clk"), w)
  | ops_list_rate _ _ n => fun w =>
      (if n <? 3 then 1000 * (n + 1) else - EINVAL, w)
  | seq_printf _ _ => fun w => (0, w)
  | printk _ _ => fun w => (tt, w)
  | debugfs_create_dir _ _ => fresh
  | debugfs_create_u32 _ _ _ => fresh
  | debugfs_create_file _ _ _ _ _ => fresh
  | debugfs_remove_recursive _ => fun w => (tt, w)
  | kzalloc _ => fun w => (true, w)
  end.

Definition pc_ops : clk_ops :=
  {| is_enabled := Some "pc_clk_is_enabled";
     is_local := Some "pc_clk_is_local";
     list_rate := None |}.

Definition mk (name : string) (fl : Z) : clk :=
  {| flags := fl; ops := pc_ops; dbg_name := name; count := 0 |}.

Definition measure_clk : clk := mk "measure" 0.
Definition uart1_clk : clk := mk "uart1_clk" 0.
Definition sdc1_clk : clk := mk "sdc1_clk" CLKFLAG_MIN.
Definition gp_clk : clk := mk "gp_clk" CLKFLAG_MAX.
Definition ebi1_clk : clk := mk "ebi1_clk" (Z.lor CLKFLAG_MIN CLKFLAG_MAX).
Definition pll4_clk : clk := mk "pll4_clk" 0.

(** A clock whose operations have neither [is_enabled] nor [is_local],
    held once. *)
Definition bare_clk : clk :=
  {| flags := 0;
     ops := {| is_enabled := None; is_local := None; list_rate := None |};
     dbg_name := "bare_clk";
     count := 1 |}.

Definition entry (c : option clk) : clk_lookup :=
  {| dev_id := None; con_id := option_map dbg_name c; lookup_clk := c |}.

Definition table : list clk_lookup :=
  [entry (Some uart1_clk); entry None; entry (Some sdc1_clk);
   entry (Some gp_clk); entry None].

Definition w0 : world :=
  {| probe := Some measure_clk; parent := None; running := [];
     rates := [("uart1_clk", 100); ("sdc1_clk", 50); ("gp_clk", 200)];
     next_dentry := 1 |}.

(** The same tree on a target with no measurement clock. *)
Definition w0_no_probe : world :=
  {| probe := None; parent := None; running := [];
     rates := rates w0; next_dentry := 1 |}.

Definition after_init (w : world) : globals * world :=
  let r := exec handle (clock_debug_init boot table) w in
  (match outcome r with inr (_, g) => g | inl _ => boot end, final r).

End Sim.

(** * Properties *)

(** ** Runs of composed programs *)

Section ExecFacts.

Variable W : Type.
Variable handle : forall c : call, W -> ans c * W.

(** Running [m] and then [f] on its result: a fault of [m] ends the run. *)
Lemma exec_bind {A B : Type} (m : prog A) (f : A -> prog B) (w : W) :
  exec handle (bind m f) w =
  match outcome (exec handle m w) with
  | inl e => {| outcome := inl e;
                final := final (exec handle m w);
                calls := calls (exec handle m w) |}
  | inr a =>
    let r2 := exec handle (f a) (final (exec handle m w)) in
    {| outcome := outcome r2;
       final := final r2;
       calls := calls (exec handle m w) ++ calls r2 |}
  end.
Proof.
  revert w.
  induction m as [a | e | c k IH]; intro w; cbn.
  - destruct (exec handle (f a) w); reflexivity.
  - reflexivity.
  - rewrite IH.
    destruct (outcome (exec handle (k (fst (handle c w))) (snd (handle c w))));
      reflexivity.
Qed.

Lemma quiet_bind {A B : Type} (P : call -> Prop) (m : prog A) (f : A -> prog B) :
  quiet P m -> (forall a, quiet P (f a)) -> quiet P (bind m f).
Proof.
  intros Hm Hf.
  induction m as [a | e | c k IH]; cbn in *.
  - apply Hf.
  - exact I.
  - destruct Hm as [Hc Hk].
    split; [exact Hc | intro a; apply IH, Hk].
Qed.

(** A quiet program issues only calls that satisfy the predicate. *)
Lemma quiet_calls {R : Type} (P : call -> Prop) (p : prog R) (w : W) :
  quiet P p -> Forall P (calls (exec handle p w)).
Proof.
  revert w.
  induction p as [a | e | c k IH]; intros w Hq; cbn in *; auto.
  destruct Hq as [Hc Hk].
  constructor; [exact Hc | apply IH, Hk].
Qed.

(** An observation of the environment that only calls outside [P] can
    change is the same after a run of a program quiet for [P]. *)
Lemma quiet_frame {R O : Type} (P : call -> Prop) (obs : W -> O) (p : prog R) :
  (forall c w, P c -> obs (snd (handle c w)) = obs w) ->
  forall w, quiet P p -> obs (final (exec handle p w)) = obs w.
Proof.
  intro Hframe.
  induction p as [a | e | c k IH]; intros w Hq; cbn in *; auto.
  destruct Hq as [Hc Hk].
  rewrite IH by apply Hk.
  apply Hframe, Hc.
Qed.

(** Once the first thread has finished, what is left of any schedule runs
    the second thread alone. *)
Lemma interleave_left_done {A B : Type} (s : list bool) (a : A) (p2 : prog B)
  (w : W) :
  interleave handle s (Ret a) p2 w =
  (inr a, outcome (exec handle p2 w), final (exec handle p2 w)).
Proof.
  revert p2 w.
  induction s as [| b s IH]; intros p2 w.
  - reflexivity.
  - destruct b; cbn.
    + apply IH.
    + destruct p2 as [x | e | c k]; cbn; apply IH.
Qed.

Lemma interleave_right_done {A B : Type} (s : list bool) (p1 : prog A) (b : B)
  (w : W) :
  interleave handle s p1 (Ret b) w =
  (outcome (exec handle p1 w), inr b, final (exec handle p1 w)).
Proof.
  revert p1 w.
  induction s as [| t s IH]; intros p1 w.
  - reflexivity.
  - destruct t; cbn.
    + destruct p1 as [x | e | c k]; cbn; apply IH.
    + apply IH.
Qed.

End ExecFacts.

(** ** Rate controller *)

(** C1.  Writing the rate attribute: a clock with the MAX flag first gets
    [clk_set_max_rate], whose result is dropped; then a clock with the MIN
    flag gets [clk_set_min_rate] and any other clock [clk_set_rate], and the
    function returns exactly what that second call returned, with both flags
    set as well.  The only other call is the printk that reports a result
    other than 0. *)
Theorem rate_set_max_then_definitive :
  forall (CLKFLAG_MIN CLKFLAG_MAX : Z) (W : Type)
         (handle : forall c : call, W -> ans c * W)
         (clock : clk) (val : Z) (w : W),
  let rate := to_ulong val in
  let is_max := has_flag clock CLKFLAG_MAX in
  let is_min := has_flag clock CLKFLAG_MIN in
  let w1 := if is_max then snd (handle (clk_set_max_rate clock rate) w) else w in
  let definitive :=
    if is_min then clk_set_min_rate clock rate else clk_set_rate clock rate in
  let d : Z * W :=
    if is_min then handle (clk_set_min_rate clock rate) w1
    else handle (clk_set_rate clock rate) w1 in
  let msg :=
    printk (KERN_ERR ++ "clk_set%s_rate failed (%d)" ++ nl)%string
      [arg_str (if is_min then "_min" else ""); arg_int (fst d)] in
  let r := exec handle (clock_debug_rate_set CLKFLAG_MIN CLKFLAG_MAX clock val) w in
  outcome r = inr (fst d) /\
  calls r = (if is_max then [clk_set_max_rate clock rate] else [])
            ++ [definitive] ++ (if fst d =? 0 then [] else [msg]) /\
  final r = if fst d =? 0 then snd d else snd (handle msg (snd d)).
Proof.
  intros MIN MAX W handle clock val w.
  unfold clock_debug_rate_set.
  destruct (has_flag clock MAX), (has_flag clock MIN); cbn; unfold ans;
    match goal with
    | |- context [?ret =? 0] => destruct (ret =? 0)
    end; cbn; auto.
Qed.

(** ** Measurement probe *)

(** C3.  Reading the measure attribute of [target]: the probe is reparented
    to [target]; if that call returns 0 the function returns 0 with the rate
    read from the probe right after it, and otherwise it returns the
    reparent's status, reads no rate and leaves the value untouched. *)
Theorem measure_get_rate_iff_reparented :
  forall (W : Type) (handle : forall c : call, W -> ans c * W)
         (g : globals) (target : clk) (val : Z) (w : W),
  let sp : Z * W := handle (clk_set_parent (measure g) target) w in
  let gr : Z * W := handle (clk_get_rate (measure g)) (snd sp) in
  let r := exec handle (clock_debug_measure_get g target val) w in
  if fst sp =? 0
  then outcome r = inr (0, fst gr) /\
       calls r = [clk_set_parent (measure g) target; clk_get_rate (measure g)] /\
       final r = snd gr
  else outcome r = inr (fst sp, val) /\
       calls r = [clk_set_parent (measure g) target] /\
       final r = snd sp.
Proof.
  intros W handle g target val w.
  unfold clock_debug_measure_get. cbn. unfold ans.
  match goal with
  | |- context [?ret =? 0] => destruct (Z.eqb_spec ret 0) as [E | E]
  end; cbn; auto.
  rewrite E. auto.
Qed.

(** ** Enable controller *)

(** C9.  Writing the enable attribute: a value other than 0 calls
    [clk_enable] and returns its result as it is; 0 calls [clk_disable] and
    returns 0. *)
Theorem enable_set_result :
  forall (W : Type) (handle : forall c : call, W -> ans c * W)
         (clock : clk) (val : Z) (w : W),
  let r := exec handle (clock_debug_enable_set clock val) w in
  if val =? 0
  then outcome r = inr 0 /\
       calls r = [clk_disable clock] /\
       final r = snd (handle (clk_disable clock) w)
  else outcome r = inr (fst (handle (clk_enable clock) w)) /\
       calls r = [clk_enable clock] /\
       final r = snd (handle (clk_enable clock) w).
Proof.
  intros W handle clock val w.
  unfold clock_debug_enable_set.
  destruct (val =? 0); cbn; auto.
Qed.

(** C7 (as stated, refuted).  A clock whose operations have no [is_local]:
    reading its is_local attribute calls through the null member; no status
    is returned, so no error of any kind is reported. *)
Lemma local_get_without_is_local_reports_nothing :
  let r := exec Sim.handle (clock_debug_local_get Sim.bare_clk 0) Sim.w0 in
  is_local (ops Sim.bare_clk) = None /\
  outcome r = inl (NullCall "is_local") /\
  ~ (exists status v, outcome r = inr (status, v) /\ status <> 0).
Proof.
  cbn. repeat split.
  intros [status [v [H _]]]. discriminate H.
Qed.

(** C7 (amended).  Reading the is_local attribute calls the member with no
    test of its presence.  For a clock whose operations have [is_local] it
    makes that one call and returns status 0 with exactly the value
    reported (1 for true, 0 for false).  For a clock whose operations have
    none the call goes through the null member: nothing is called, nothing
    is returned, the state is as before.  For no clock at all does the
    function return a status other than 0. *)
Theorem local_get_delegates :
  forall (W : Type) (handle : forall c : call, W -> ans c * W)
         (clock : clk) (val : Z) (w : W),
  let r := exec handle (clock_debug_local_get clock val) w in
  match is_local (ops clock) with
  | Some f =>
    let a : bool * W := handle (ops_is_local f clock) w in
    outcome r = inr (0, if fst a then 1 else 0) /\
    calls r = [ops_is_local f clock] /\
    final r = snd a
  | None =>
    outcome r = inl (NullCall "is_local") /\
    calls r = [] /\
    final r = w
  end /\
  match returned r with
  | Some (status, _) => status = 0
  | None => True
  end.
Proof.
  intros W handle clock val w.
  unfold clock_debug_local_get, returned.
  destruct (is_local (ops clock)) as [f |]; cbn; auto.
Qed.

(** ** Enabled-set reports *)

(** C8 (the code at the failing input).  A clock whose operations have no
    [is_enabled] and whose count is 1: the enable attribute falls back on
    the count and reads 1, while both reports call through the null member
    on the same clock. *)
Theorem enabled_query_differs_without_is_enabled :
  forall (W : Type) (handle : forall c : call, W -> ans c * W) (w : W),
  let g := {| measure := None; debugfs_base := None;
              msm_clocks := [Sim.entry (Some Sim.bare_clk)];
              msm_enabled := Some (repeat zero 1024) |} in
  outcome (exec handle (clock_debug_enable_get Sim.bare_clk 0) w) = inr (0, 1) /\
  outcome (exec handle (_clock_debug_print_enabled g) w)
    = inl (NullCall "is_enabled") /\
  outcome (exec handle (clock_debug_print_enabled g) w)
    = inl (NullCall "is_enabled").
Proof.
  intros W handle w. cbn. auto.
Qed.

(** The registry without its null entries. *)
Definition drop_null (l : list clk_lookup) : list clk_lookup :=
  filter (fun e => negb (is_null (lookup_clk e))) l.

Definition with_clocks (g : globals) (l : list clk_lookup) : globals :=
  {| measure := measure g; debugfs_base := debugfs_base g;
     msm_clocks := l; msm_enabled := msm_enabled g |}.

(** What a run of [clock_debug_print_enabled] leaves at [msm_enabled]. *)
Definition report_of {W : Type} (r : run W globals) : fault + option (list ascii) :=
  match outcome r with
  | inl f => inl f
  | inr g => inr (msm_enabled g)
  end.

Definition null_entry (ids : option string * option string) : clk_lookup :=
  {| dev_id := fst ids; con_id := snd ids; lookup_clk := None |}.

Section Reports.

Variable W : Type.
Variable handle : forall c : call, W -> ans c * W.

Lemma _clock_debug_print_enabled_loop_cons (e : clk_lookup)
  (l : list clk_lookup) (cnt : Z) :
  _clock_debug_print_enabled_loop (e :: l) cnt =
  (on <- clk_and_is_enabled (lookup_clk e) ;;
   match lookup_clk e, on with
   | Some c, true =>
     pr_info (tab ++ "%s" ++ nl)%string [arg_str (dbg_name c)] ;;
     _clock_debug_print_enabled_loop l (to_int (cnt + 1))
   | _, _ => _clock_debug_print_enabled_loop l cnt
   end).
Proof. reflexivity. Qed.

Lemma clock_debug_print_enabled_loop_cons (e : clk_lookup)
  (l : list clk_lookup) (st : scan) :
  clock_debug_print_enabled_loop (e :: l) st =
  (on <- clk_and_is_enabled (lookup_clk e) ;;
   st' <- match lookup_clk e, on with
          | Some c, true =>
            r <- snprintf (scan_buf st) (scan_size st)
                   (to_unsigned (strlen (dbg_name c) + 2))
                   (dbg_name c ++ ", ")%string ;;
            let ret := to_unsigned (snd r) in
            Ret {| scan_buf := fst r;
                   scan_size := to_unsigned (scan_size st + ret - 1);
                   scan_cnt := to_unsigned (scan_cnt st + 1) |}
          | _, _ => Ret st
          end ;;
   if scan_size st' >? 1000 then Ret st'
   else clock_debug_print_enabled_loop l st').
Proof. reflexivity. Qed.

(** The showall scan passes over a null entry without a call and without
    counting it. *)
Lemma _clock_debug_print_enabled_loop_drop_null (l : list clk_lookup) :
  forall (cnt : Z) (w : W),
  exec handle (_clock_debug_print_enabled_loop l cnt) w =
  exec handle (_clock_debug_print_enabled_loop (drop_null l) cnt) w.
Proof.
  induction l as [| e l IH]; intros cnt w.
  - reflexivity.
  - unfold drop_null. cbn [filter]. fold (drop_null l).
    destruct (lookup_clk e) as [c |] eqn:E; cbn [is_null negb].
    + rewrite !_clock_debug_print_enabled_loop_cons, E, !exec_bind.
      destruct (outcome (exec handle (clk_and_is_enabled (Some c)) w))
        as [f | [|]]; cbn zeta.
      * reflexivity.
      * unfold pr_info. cbn. rewrite IH. reflexivity.
      * rewrite IH. reflexivity.
    + rewrite _clock_debug_print_enabled_loop_cons, E. cbn [clk_and_is_enabled bind].
      apply IH.
Qed.

(** So does the scan of the bounded report: at the head of the loop [size]
    is at most 1000, so the test that follows a null entry never leaves the
    loop. *)
Lemma clock_debug_print_enabled_loop_drop_null (l : list clk_lookup) :
  forall (st : scan) (w : W),
  scan_size st <= 1000 ->
  exec handle (clock_debug_print_enabled_loop l st) w =
  exec handle (clock_debug_print_enabled_loop (drop_null l) st) w.
Proof.
  induction l as [| e l IH]; intros st w Hsize.
  - reflexivity.
  - unfold drop_null. cbn [filter]. fold (drop_null l).
    destruct (lookup_clk e) as [c |] eqn:E; cbn [is_null negb].
    + rewrite !clock_debug_print_enabled_loop_cons, E.
      rewrite !exec_bind.
      destruct (outcome (exec handle (clk_and_is_enabled (Some c)) w))
        as [f | on]; cbn zeta; [reflexivity |].
      rewrite !exec_bind.
      match goal with
      | |- context [outcome (exec handle ?body ?w1)] =>
        destruct (outcome (exec handle body w1)) as [f | st']
      end; cbn zeta; [reflexivity |].
      destruct (Z.gtb_spec (scan_size st') 1000) as [Hgt | Hle]; [reflexivity |].
      rewrite IH; [reflexivity | exact Hle].
    + rewrite clock_debug_print_enabled_loop_cons, E.
      cbn [clk_and_is_enabled bind].
      destruct (Z.gtb_spec (scan_size st) 1000) as [Hgt | Hle].
      * lia.
      * apply IH, Hsize.
Qed.

End Reports.

Lemma drop_null_null_entries (ids : list (option string * option string)) :
  drop_null (map null_entry ids) = [].
Proof.
  induction ids as [| i ids IH]; [reflexivity | exact IH].
Qed.

(** The store that follows the scan, when the scan has collected nothing:
    [size - 1] is computed on unsigned numbers. *)
Lemma store_at_size_minus_one_of_empty :
  store (memset_zero (repeat zero 1024) 1024) (to_unsigned (0 - 1)) zero
  = Oops (OutOfBounds 4294967295).
Proof. vm_compute. reflexivity. Qed.

(** Case analysis on the run of the first part of a sequence. *)
Ltac case_run :=
  match goal with
  | |- context [exec ?h ?body ?w1] =>
    generalize (exec h body w1);
    let f := fresh "f" in
    let x := fresh "x" in
    let w' := fresh "w" in
    let cs := fresh "cs" in
    intros [[f | x] w' cs]; cbn [outcome final calls]; cbv zeta
  end.

(** C10.  Both reports give, on any registry, the run they give on the
    registry without its null entries: the same calls (so the same names
    logged), the same count, the same bytes left in the buffer, the same
    final state.  On a registry of null entries only, the showall scan
    returns 0 after logging that no clocks are enabled, and the scan of the
    bounded report ends without a call, a fault, a name or a count. *)
Theorem null_entries_are_skipped :
  forall (W : Type) (handle : forall c : call, W -> ans c * W)
         (g : globals) (w : W),
  let g' := with_clocks g (drop_null (msm_clocks g)) in
  exec handle (_clock_debug_print_enabled g) w
    = exec handle (_clock_debug_print_enabled g') w /\
  (let r := exec handle (clock_debug_print_enabled g) w in
   let r' := exec handle (clock_debug_print_enabled g') w in
   report_of r = report_of r' /\ calls r = calls r' /\ final r = final r') /\
  (forall (ids : list (option string * option string)) (buf : list ascii),
   let nulls := map null_entry ids in
   let st0 := {| scan_buf := buf; scan_size := 0; scan_cnt := 0 |} in
   let r := exec handle (_clock_debug_print_enabled (with_clocks g nulls)) w in
   outcome r = inr 0 /\
   calls r = [printk (KERN_INFO ++ "Enabled clocks:" ++ nl)%string [];
              printk (KERN_INFO ++ "No clocks enabled." ++ nl)%string []] /\
   exec handle (clock_debug_print_enabled_loop nulls st0) w
     = {| outcome := inr st0; final := w; calls := [] |}).
Proof.
  intros W handle g w g'.
  split; [| split].
  - unfold _clock_debug_print_enabled, pr_info. cbn.
    rewrite !exec_bind.
    rewrite _clock_debug_print_enabled_loop_drop_null. reflexivity.
  - unfold clock_debug_print_enabled, report_of, g', with_clocks.
    cbn [msm_enabled msm_clocks measure debugfs_base]. cbv zeta.
    destruct (msm_enabled g) as [buf |] eqn:E; [| cbn; rewrite E; auto].
    rewrite !exec_bind.
    rewrite clock_debug_print_enabled_loop_drop_null by (cbn [scan_size]; lia).
    case_run; [auto |].
    rewrite !exec_bind. case_run; [auto |].
    rewrite !exec_bind. case_run; [auto |].
    cbn [exec outcome final calls msm_enabled]. auto.
  - intros ids buf nulls st0.
    unfold _clock_debug_print_enabled, pr_info. cbn.
    rewrite !exec_bind.
    rewrite _clock_debug_print_enabled_loop_drop_null.
    rewrite clock_debug_print_enabled_loop_drop_null by (cbn; lia).
    unfold nulls. rewrite drop_null_null_entries. cbn. auto.
Qed.

(** C2 (the code at the failing input).  With the buffer allocated and a
    registry in which every entry is null (the empty registry among them),
    nothing is collected, [size] is still 0 after the scan, and the store
    that strips the last separator goes to index [size - 1] taken as an
    unsigned number, outside the 1024 bytes; the function gets no
    further. *)
Theorem print_enabled_empty_report_stores_outside :
  forall (W : Type) (handle : forall c : call, W -> ans c * W) (w : W)
         (probe : option clk) (base : option dentry)
         (ids : list (option string * option string)),
  let g := {| measure := probe; debugfs_base := base;
              msm_clocks := map null_entry ids;
              msm_enabled := Some (repeat zero 1024) |} in
  let r := exec handle (clock_debug_print_enabled g) w in
  outcome r = inl (OutOfBounds 4294967295) /\ calls r = [].
Proof.
  intros W handle w probe base ids.
  unfold clock_debug_print_enabled. cbn [msm_enabled msm_clocks].
  cbn zeta.
  rewrite exec_bind.
  rewrite clock_debug_print_enabled_loop_drop_null by (cbn; lia).
  rewrite drop_null_null_entries.
  cbn [clock_debug_print_enabled_loop exec outcome final calls scan_buf scan_size].
  rewrite store_at_size_minus_one_of_empty.
  cbn. auto.
Qed.

(** ** Which calls a function can make *)

Ltac quiet_call :=
  first [ exact I
        | reflexivity
        | split; reflexivity
        | intro; first [ discriminate | reflexivity ] ].

Ltac quiet_step :=
  match goal with
  | |- quiet _ (Ret _) => exact I
  | |- quiet _ (Oops _) => exact I
  | |- quiet _ (bind _ _) => apply quiet_bind; [| intro]
  | |- quiet _ (Vis _ _) => split; [quiet_call | intro]
  | |- quiet _ (do _) => split; [quiet_call | intro; exact I]
  | |- quiet _ (pr_info _ _) => split; [quiet_call | intro; exact I]
  | |- quiet _ (if ?b then _ else _) => destruct b
  | |- quiet _ (match ?x with _ => _ end) => destruct x
  end.

Ltac quiet_auto := cbv zeta; repeat (quiet_step; cbv zeta).

Definition not_reparent (c : call) : Prop := is_reparent c = false.

Section Quiet.

Variable P : call -> Prop.

(** The calls of the reports, of the attributes other than measure and of
    the initialisation: none of them is [clk_set_parent]. *)
Hypothesis P_ops_is_enabled : forall f c, P (ops_is_enabled f c).
Hypothesis P_printk : forall fmt args, P (printk fmt args).

Lemma quiet_clk_and_is_enabled (c : option clk) : quiet P (clk_and_is_enabled c).
Proof.
  unfold clk_and_is_enabled.
  destruct c as [c |]; [| exact I].
  destruct (is_enabled (ops c)); [| exact I].
  split; [apply P_ops_is_enabled | intro; exact I].
Qed.

Lemma quiet_pr_info (fmt : string) (args : list printk_arg) :
  quiet P (pr_info fmt args).
Proof. split; [apply P_printk | intro; exact I]. Qed.

Lemma quiet__clock_debug_print_enabled_loop (l : list clk_lookup) :
  forall cnt, quiet P (_clock_debug_print_enabled_loop l cnt).
Proof.
  induction l as [| e l IH]; intro cnt; [exact I |].
  rewrite _clock_debug_print_enabled_loop_cons.
  apply quiet_bind; [apply quiet_clk_and_is_enabled | intro on].
  destruct (lookup_clk e), on; try apply IH.
  apply quiet_bind; [apply quiet_pr_info | intro; apply IH].
Qed.

Lemma quiet__clock_debug_print_enabled (g : globals) :
  quiet P (_clock_debug_print_enabled g).
Proof.
  unfold _clock_debug_print_enabled.
  apply quiet_bind; [apply quiet_pr_info | intros _].
  apply quiet_bind; [apply quiet__clock_debug_print_enabled_loop | intro cnt].
  apply quiet_bind; [| intro; exact I].
  destruct (negb (cnt =? 0)); apply quiet_pr_info.
Qed.

Lemma quiet_store (buf : list ascii) (i : Z) (b : ascii) : quiet P (store buf i b).
Proof. unfold store. destruct (_ && _); exact I. Qed.

Lemma quiet_store_bytes (bytes : list ascii) :
  forall buf off, quiet P (store_bytes buf off bytes).
Proof.
  induction bytes as [| b bs IH]; intros buf off; [exact I |].
  cbn [store_bytes].
  apply quiet_bind; [apply quiet_store | intro; apply IH].
Qed.

Lemma quiet_snprintf (buf : list ascii) (off n : Z) (out : string) :
  quiet P (snprintf buf off n out).
Proof.
  unfold snprintf.
  apply quiet_bind; [| intro; exact I].
  destruct (0 <? n); [apply quiet_store_bytes | exact I].
Qed.

Lemma quiet_clock_debug_print_enabled_loop (l : list clk_lookup) :
  forall st, quiet P (clock_debug_print_enabled_loop l st).
Proof.
  induction l as [| e l IH]; intro st; [exact I |].
  rewrite clock_debug_print_enabled_loop_cons.
  apply quiet_bind; [apply quiet_clk_and_is_enabled | intro on].
  apply quiet_bind.
  - destruct (lookup_clk e), on; try exact I.
    apply quiet_bind; [apply quiet_snprintf | intro; exact I].
  - intro st'. destruct (scan_size st' >? 1000); [exact I | apply IH].
Qed.

Lemma quiet_clock_debug_print_enabled (g : globals) :
  quiet P (clock_debug_print_enabled g).
Proof.
  unfold clock_debug_print_enabled. cbv zeta.
  destruct (msm_enabled g) as [buf |].
  - apply quiet_bind; [apply quiet_clock_debug_print_enabled_loop | intro st].
    apply quiet_bind; [apply quiet_store | intro buf'].
    apply quiet_bind; [| intro; exact I].
    destruct (negb (scan_cnt st =? 0)); [| apply quiet_pr_info].
    destruct (cstring buf'); [apply quiet_pr_info | exact I].
  - apply quiet_bind; [apply quiet_pr_info | intro; exact I].
Qed.

End Quiet.

Lemma quiet_list_rates_show_loop (fuel : nat) :
  forall clock i, quiet not_reparent (list_rates_show_loop fuel clock i).
Proof.
  induction fuel as [| fuel IH]; intros clock i; [exact I |].
  cbn [list_rates_show_loop].
  destruct (list_rate (ops clock)); [| exact I].
  apply quiet_bind; [split; [reflexivity | intro; exact I] | intro rate].
  destruct (0 <=? rate); [| exact I].
  apply quiet_bind; [split; [reflexivity | intro; exact I] | intro; apply IH].
Qed.

(** The function behind the measure file has no test of the probe of its
    own: given null statics it hands the null probe to [clk_set_parent].
    What keeps it from running without a probe is the registration, which
    creates its file only when the probe exists. *)
Lemma measure_get_without_probe_still_reparents :
  let g := fst (Sim.after_init Sim.w0_no_probe) in
  let w := snd (Sim.after_init Sim.w0_no_probe) in
  let r := exec Sim.handle (clock_debug_measure_get g Sim.uart1_clk 0) w in
  measure g = None /\
  calls r = [clk_set_parent None Sim.uart1_clk] /\
  ~ Forall not_reparent (calls r).
Proof.
  cbn. repeat split.
  intro H. inversion H as [| c l Hc Hl]. discriminate Hc.
Qed.

(** With no probe resolved ([measure] null), registering a clock never
    calls [clk_set_parent] and never creates a measure file, whatever the
    calls it makes return. *)
Lemma no_probe_no_measure_endpoint :
  forall (W : Type) (handle : forall c : call, W -> ans c * W)
         (tolower : ascii -> ascii) (g : globals) (clock : clk) (w : W),
  measure g = None ->
  Forall (fun c => is_reparent c = false /\ is_measure_file c = false)
    (calls (exec handle (clock_debug_add tolower g clock) w)).
Proof.
  intros W handle tolower g clock w Hprobe.
  apply quiet_calls.
  unfold clock_debug_add, lowered_name. rewrite Hprobe.
  quiet_auto.
Qed.

Lemma no_probe_no_measure_endpoint_witness :
  let g := fst (Sim.after_init Sim.w0_no_probe) in
  let w := snd (Sim.after_init Sim.w0_no_probe) in
  Forall (fun c => is_reparent c = false /\ is_measure_file c = false)
    (calls (exec Sim.handle (clock_debug_add Sim.tolower g Sim.uart1_clk) w)).
Proof.
  exact (no_probe_no_measure_endpoint Sim.world Sim.handle Sim.tolower
           (fst (Sim.after_init Sim.w0_no_probe)) Sim.uart1_clk
           (snd (Sim.after_init Sim.w0_no_probe)) eq_refl).
Defined.

(** [obs] reads the same in the state a run of [p] from [w] ends in as in
    [w]. *)
Definition unchanged {W O R : Type} (handle : forall c : call, W -> ans c * W)
  (obs : W -> O) (w : W) (p : prog R) : Prop :=
  obs (final (exec handle p w)) = obs w.

(** In the reference tree only [clk_set_parent] moves the probe. *)
Lemma sim_parent_frame (c : call) (w : Sim.world) :
  is_reparent c = false -> Sim.parent (snd (Sim.handle c w)) = Sim.parent w.
Proof.
  destruct c; intro H; try discriminate H; cbn;
    repeat match goal with
           | o : option clk |- _ => destruct o; cbn
           | |- context [if ?b then _ else _] => destruct b; cbn
           end; reflexivity.
Defined.

(** C5 (as stated, refuted).  Registering a clock when the probe exists
    reparents the probe onto that clock: after initialisation and one
    registration, with no measurement made, the probe's parent has gone
    from unset to the registered clock. *)
Lemma registration_reparents_probe :
  let g := fst (Sim.after_init Sim.w0) in
  let w := snd (Sim.after_init Sim.w0) in
  let r := exec Sim.handle (clock_debug_add Sim.tolower g Sim.uart1_clk) w in
  Sim.parent w = None /\
  outcome r = inr 0 /\
  Sim.parent (final r) = Some "uart1_clk".
Proof. vm_compute. auto. Qed.

(** C5 (amended).  Where the probe's parent is moved by [clk_set_parent]
    alone, every function of the file other than the measure attribute and
    the registration leaves it as it was: they never make that call.  The
    measure attribute and the registration make it only as
    [clk_set_parent(measure, clock)] for the clock they are given. *)
Theorem probe_parent_moved_only_by_measure_and_registration :
  forall (W O : Type) (handle : forall c : call, W -> ans c * W)
         (probe_parent : W -> O),
  (forall c w, is_reparent c = false ->
               probe_parent (snd (handle c w)) = probe_parent w) ->
  forall (CLKFLAG_MIN CLKFLAG_MAX : Z) (tolower : ascii -> ascii)
         (g : globals) (clock : clk) (val : Z) (clocks : list clk_lookup)
         (fuel : nat) (w : W),
  let own c := is_reparent c = true -> c = clk_set_parent (measure g) clock in
  unchanged handle probe_parent w
    (clock_debug_rate_set CLKFLAG_MIN CLKFLAG_MAX clock val) /\
  unchanged handle probe_parent w (clock_debug_rate_get clock val) /\
  unchanged handle probe_parent w (clock_debug_enable_set clock val) /\
  unchanged handle probe_parent w (clock_debug_enable_get clock val) /\
  unchanged handle probe_parent w (clock_debug_local_get clock val) /\
  unchanged handle probe_parent w (clock_showall g val) /\
  unchanged handle probe_parent w (clock_debug_print_enabled g) /\
  unchanged handle probe_parent w (clock_debug_init g clocks) /\
  unchanged handle probe_parent w (list_rates_show fuel clock) /\
  Forall own (calls (exec handle (clock_debug_measure_get g clock val) w)) /\
  Forall own (calls (exec handle (clock_debug_add tolower g clock) w)).
Proof.
  intros W O handle probe_parent Hframe MIN MAX tolower g clock val clocks fuel w own.
  assert (Hq : forall (R : Type) (p : prog R),
             quiet not_reparent p -> unchanged handle probe_parent w p).
  { intros R p Hp. unfold unchanged.
    apply (quiet_frame W handle not_reparent); [exact Hframe | exact Hp]. }
  repeat match goal with |- _ /\ _ => split end;
    try (apply Hq); try (apply quiet_calls).
  - unfold clock_debug_rate_set. quiet_auto.
  - unfold clock_debug_rate_get. quiet_auto.
  - unfold clock_debug_enable_set. quiet_auto.
  - unfold clock_debug_enable_get. quiet_auto.
  - unfold clock_debug_local_get. quiet_auto.
  - unfold clock_showall.
    apply quiet_bind; [| intro; exact I].
    apply quiet__clock_debug_print_enabled; intros; reflexivity.
  - apply quiet_clock_debug_print_enabled; intros; reflexivity.
  - unfold clock_debug_init. quiet_auto.
  - apply quiet_list_rates_show_loop.
  - unfold clock_debug_measure_get, own. quiet_auto.
  - unfold clock_debug_add, lowered_name, own. quiet_auto.
Qed.

Lemma probe_parent_moved_only_by_measure_and_registration_witness :
  unchanged Sim.handle Sim.parent Sim.w0
    (clock_debug_rate_set Sim.CLKFLAG_MIN Sim.CLKFLAG_MAX Sim.ebi1_clk 10).
Proof.
  exact (proj1 (probe_parent_moved_only_by_measure_and_registration
                  Sim.world (option string) Sim.handle Sim.parent
                  sim_parent_frame
                  Sim.CLKFLAG_MIN Sim.CLKFLAG_MAX Sim.tolower
                  (fst (Sim.after_init Sim.w0)) Sim.ebi1_clk 10 Sim.table
                  3%nat Sim.w0)).
Defined.

(** ** Two readers of measure files *)

(** C6 (as stated, refuted).  The function takes no lock between its two
    calls.  Two readers, one measuring uart1_clk (100) and one gp_clk
    (200), scheduled call by call in turn: the second reparent lands
    between the first reader's reparent and its read, and the first reader
    returns the rate of the other reader's target. *)
Lemma interleaved_measure_reads_other_target :
  let g := fst (Sim.after_init Sim.w0) in
  let w := snd (Sim.after_init Sim.w0) in
  let m1 := clock_debug_measure_get g Sim.uart1_clk 0 in
  let m2 := clock_debug_measure_get g Sim.gp_clk 0 in
  outcome (exec Sim.handle m1 w) = inr (0, 100) /\
  fst (fst (interleave Sim.handle [true; false; true; false] m1 m2 w))
    = inr (0, 200).
Proof. vm_compute. auto. Qed.

Section TwoReaders.

Variable W : Type.
Variable handle : forall c : call, W -> ans c * W.

(** A reader whose two calls come first runs as if alone, and leaves the
    other thread to run after it. *)
Lemma measure_first_then {B : Type} (g : globals) (t : clk) (v : Z)
  (s : list bool) (p2 : prog B) (w : W) :
  let r1 := exec handle (clock_debug_measure_get g t v) w in
  let r2 := exec handle p2 (final r1) in
  interleave handle (true :: true :: s) (clock_debug_measure_get g t v) p2 w
  = (outcome r1, outcome r2, final r2).
Proof.
  unfold clock_debug_measure_get. cbn. unfold ans.
  match goal with
  | |- context [?ret =? 0] => destruct (ret =? 0)
  end; cbn; apply interleave_left_done.
Qed.

Lemma then_measure_first {A : Type} (g : globals) (t : clk) (v : Z)
  (s : list bool) (p1 : prog A) (w : W) :
  let r2 := exec handle (clock_debug_measure_get g t v) w in
  let r1 := exec handle p1 (final r2) in
  interleave handle (false :: false :: s) p1 (clock_debug_measure_get g t v) w
  = (outcome r1, outcome r2, final r1).
Proof.
  unfold clock_debug_measure_get. cbn. unfold ans.
  match goal with
  | |- context [?ret =? 0] => destruct (ret =? 0)
  end; cbn; apply interleave_right_done.
Qed.

End TwoReaders.

(** When the two calls of one reader are the first two turns, each reader
    gets what it gets running alone: the first from the initial state, the
    second from the state the first one left. *)
Lemma measure_back_to_back_is_sequential :
  forall (W : Type) (handle : forall c : call, W -> ans c * W)
         (g : globals) (t1 t2 : clk) (v1 v2 : Z) (s : list bool) (w : W),
  let m1 := clock_debug_measure_get g t1 v1 in
  let m2 := clock_debug_measure_get g t2 v2 in
  (let r1 := exec handle m1 w in
   let r2 := exec handle m2 (final r1) in
   interleave handle (true :: true :: s) m1 m2 w
     = (outcome r1, outcome r2, final r2)) /\
  (let r2 := exec handle m2 w in
   let r1 := exec handle m1 (final r2) in
   interleave handle (false :: false :: s) m1 m2 w
     = (outcome r1, outcome r2, final r1)).
Proof.
  intros W handle g t1 t2 v1 v2 s w m1 m2.
  split.
  - apply measure_first_then.
  - apply then_measure_first.
Qed.

(** *** Every schedule: the calls in the order they are made *)

(** One call of a run of two threads: the thread that makes it ([true] the
    first), the call, and the state it is made in. *)
Record step (W : Type) : Type := {
  who : bool;
  what : call;
  before : W
}.

Arguments who {W} s.
Arguments what {W} s.
Arguments before {W} s.

Section Steps.

Variable W : Type.
Variable handle : forall c : call, W -> ans c * W.

(** The calls of one thread running alone to its end. *)
Fixpoint solo_steps {R : Type} (id : bool) (p : prog R) (w : W)
  : list (step W) :=
  match p with
  | Vis c k =>
    {| who := id; what := c; before := w |}
      :: solo_steps id (k (fst (handle c w))) (snd (handle c w))
  | _ => []
  end.

(** The calls of [interleave], in the order they are made. *)
Fixpoint steps {A B : Type} (sched : list bool) (p1 : prog A) (p2 : prog B)
  (w : W) : list (step W) :=
  match sched with
  | [] =>
    solo_steps true p1 w ++ solo_steps false p2 (final (exec handle p1 w))
  | true :: s =>
    match p1 with
    | Vis c k =>
      {| who := true; what := c; before := w |}
        :: steps s (k (fst (handle c w))) p2 (snd (handle c w))
    | _ => steps s p1 p2 w
    end
  | false :: s =>
    match p2 with
    | Vis c k =>
      {| who := false; what := c; before := w |}
        :: steps s p1 (k (fst (handle c w))) (snd (handle c w))
    | _ => steps s p1 p2 w
    end
  end.

Lemma solo_steps_who {R : Type} (id : bool) (p : prog R) :
  forall w, Forall (fun st => who st = id) (solo_steps id p w).
Proof.
  induction p as [a | e | c k IH]; intro w; cbn; constructor;
    [reflexivity | apply IH].
Qed.

Lemma solo_steps_final {R : Type} (id : bool) (p : prog R) (w : W) :
  solo_steps id p w = [] -> final (exec handle p w) = w.
Proof. destruct p; cbn; [reflexivity .. | discriminate]. Qed.

(** Where a list that starts with elements of one kind has its first
    element of the other kind. *)
Lemma split_at_other {A : Type} (P : A -> Prop) (l1 : list A) :
  forall (l2 pre : list A) (x : A) (rest : list A),
  Forall P l1 -> ~ P x ->
  l1 ++ l2 = pre ++ x :: rest ->
  exists pre', pre = l1 ++ pre' /\ l2 = pre' ++ x :: rest.
Proof.
  induction l1 as [| a l1 IH]; intros l2 pre x rest Hall Hx E.
  - exists pre. auto.
  - inversion Hall as [| a' l' Ha Hl]; subst a' l'.
    destruct pre as [| b pre]; cbn in E; injection E as E1 E2.
    + subst x. contradiction.
    + subst b. destruct (IH l2 pre x rest Hl Hx E2) as [pre' [Hp Hr]].
      exists pre'. subst pre. auto.
Qed.

(** Once a thread has returned, every call is the other thread's. *)
Lemma steps_second_returned {A B : Type} (s : list bool) :
  forall (p1 : prog A) (b : B) (w : W),
  Forall (fun st => who st = true) (steps s p1 (Ret b) w).
Proof.
  induction s as [| x s IH]; intros p1 b w.
  - cbn. rewrite app_nil_r. apply solo_steps_who.
  - destruct x; cbn.
    + destruct p1 as [a | e | c k]; try apply IH.
      constructor; [reflexivity | apply IH].
    + apply IH.
Qed.

Lemma steps_first_returned {A B : Type} (s : list bool) :
  forall (a : A) (p2 : prog B) (w : W),
  Forall (fun st => who st = false) (steps s (Ret a) p2 w).
Proof.
  induction s as [| x s IH]; intros a p2 w.
  - cbn. apply solo_steps_who.
  - destruct x; cbn.
    + apply IH.
    + destruct p2 as [b | e | c k]; try apply IH.
      constructor; [reflexivity | apply IH].
Qed.

Variable g : globals.
Variable t : clk.
Variable v : Z.

(** What is left of a measure request after its reparent returned [ret]. *)
Definition after_reparent (ret : Z) : prog (Z * Z) :=
  if ret =? 0
  then Vis (clk_get_rate (measure g)) (fun r => Ret (ret, r))
  else Ret (ret, v).

Lemma clock_debug_measure_get_steps :
  clock_debug_measure_get g t v
  = Vis (clk_set_parent (measure g) t) after_reparent.
Proof. reflexivity. Qed.

(** **** The request as the second thread *)

Lemma steps_second_after_reparent {A : Type} (s : list bool) :
  forall (p1 : prog A) (ret : Z) (w : W),
  Forall (fun st => who st = false -> what st = clk_get_rate (measure g))
         (steps s p1 (after_reparent ret) w).
Proof.
  assert (Htrue : forall l : list (step W),
             Forall (fun st => who st = true) l ->
             Forall (fun st => who st = false ->
                               what st = clk_get_rate (measure g)) l).
  { intros l H. eapply Forall_impl; [| exact H].
    intros st E1 E2. rewrite E1 in E2. discriminate E2. }
  induction s as [| x s IH]; intros p1 ret w.
  - cbn. apply Forall_app. split; [apply Htrue, solo_steps_who |].
    unfold after_reparent. destruct (ret =? 0); cbn; repeat constructor.
  - destruct x; cbn.
    + destruct p1 as [a | e | c k]; try apply IH.
      constructor; [intro E; discriminate E | apply IH].
    + unfold after_reparent at 1. destruct (ret =? 0) eqn:E.
      * constructor; [reflexivity | apply Htrue, steps_second_returned].
      * apply Htrue.
        replace (after_reparent ret) with (@Ret (Z * Z) (ret, v))
          by (unfold after_reparent; rewrite E; reflexivity).
        apply steps_second_returned.
Qed.

Lemma steps_second_read_is_next {A : Type} (s : list bool) :
  forall (p1 : prog A) (ret : Z) (w wb : W) (c : call) (post : list (step W)),
  steps s p1 (after_reparent ret) w
    = {| who := false; what := c; before := wb |} :: post ->
  wb = w /\
  snd (fst (interleave handle s p1 (after_reparent ret) w))
    = inr (0, fst (handle (clk_get_rate (measure g)) w)).
Proof.
  induction s as [| x s IH]; intros p1 ret w wb c post E.
  - cbn in E.
    destruct (solo_steps true p1 w) as [| st l] eqn:E1.
    + cbn in E. rewrite (solo_steps_final true p1 w E1) in E.
      cbn [interleave fst snd]. rewrite (solo_steps_final true p1 w E1).
      unfold after_reparent in *. destruct (Z.eqb_spec ret 0) as [E0 | E0].
      * cbn in E. injection E as _ Ew _. subst ret. cbn. auto.
      * cbn in E. discriminate E.
    + pose proof (solo_steps_who true p1 w) as Hw. rewrite E1 in Hw.
      inversion Hw as [| st' l' Hst Hl]; subst st' l'.
      cbn in E. injection E as E _. subst st. discriminate Hst.
  - destruct x; cbn in E |- *.
    + destruct p1 as [a | e | c1 k]; try (apply (IH _ _ _ _ _ _ E)).
      discriminate E.
    + unfold after_reparent in E |- *.
      destruct (Z.eqb_spec ret 0) as [E0 | E0].
      * injection E as _ Ew _. subst ret.
        rewrite interleave_right_done. cbn. auto.
      * pose proof (steps_second_returned s p1 (ret, v) w) as Hw.
        rewrite E in Hw.
        inversion Hw as [| st' l' Hst Hl]. discriminate Hst.
Qed.

(** A request run as the second thread, on any schedule and beside any
    program: if its reparent and its read are next to each other in the
    order of calls, the read is made in the state the reparent left, and
    the request returns 0 with the rate that read returned. *)
Lemma measure_second_adjacent {A : Type} (s : list bool) :
  forall (p1 : prog A) (w wa wb : W) (pre post : list (step W)),
  steps s p1 (clock_debug_measure_get g t v) w
    = pre
      ++ {| who := false; what := clk_set_parent (measure g) t; before := wa |}
      :: {| who := false; what := clk_get_rate (measure g); before := wb |}
      :: post ->
  wb = snd (handle (clk_set_parent (measure g) t) wa) /\
  snd (fst (interleave handle s p1 (clock_debug_measure_get g t v) w))
    = inr (0, fst (handle (clk_get_rate (measure g)) wb)).
Proof.
  rewrite clock_debug_measure_get_steps.
  induction s as [| x s IH]; intros p1 w wa wb pre post E.
  - cbn [steps] in E.
    apply (split_at_other (fun st => who st = true)) in E;
      [| apply solo_steps_who | cbn; discriminate].
    destruct E as [pre' [_ E]]. cbn [solo_steps] in E.
    destruct pre' as [| st pre'].
    + cbn in E. injection E as Ea Eb. subst wa.
      cbn [interleave fst snd exec outcome].
      unfold after_reparent in *.
      match type of Eb with
      | context [?ret =? 0] => destruct (Z.eqb_spec ret 0) as [E0 | E0]
      end; cbn in Eb; [| discriminate Eb].
      injection Eb as Eb _. subst wb.
      unfold ans in *. rewrite E0. cbn. auto.
    + cbn in E. injection E as _ E. unfold after_reparent in E.
      match type of E with
      | context [?ret =? 0] => destruct (ret =? 0)
      end; cbn in E; destruct pre' as [| st' pre']; cbn in E;
        try discriminate E.
      injection E as _ E. destruct pre'; discriminate E.
  - destruct x; cbn [steps interleave] in E |- *.
    + destruct p1 as [a | e | c k]; try (apply (IH _ _ _ _ _ _ E)).
      destruct pre as [| st pre]; cbn in E; [discriminate E |].
      injection E as _ E. apply (IH _ _ _ _ _ _ E).
    + destruct pre as [| st pre]; cbn in E.
      * injection E as Ew E. subst wa.
        destruct (steps_second_read_is_next s p1 _ _ _ _ _ E) as [Hb Hr].
        subst wb. split; [reflexivity | exact Hr].
      * injection E as _ E.
        match type of E with
        | ?l = _ =>
          assert (Hall : Forall (fun st => who st = false ->
                                           what st = clk_get_rate (measure g)) l)
            by apply steps_second_after_reparent
        end.
        rewrite E in Hall. apply Forall_app in Hall. destruct Hall as [_ Hall].
        inversion Hall as [| st' l' Hst Hl]; subst st' l'.
        cbn in Hst. specialize (Hst eq_refl). discriminate Hst.
Qed.

(** **** The request as the first thread *)

Lemma steps_first_after_reparent {B : Type} (s : list bool) :
  forall (p2 : prog B) (ret : Z) (w : W),
  Forall (fun st => who st = true -> what st = clk_get_rate (measure g))
         (steps s (after_reparent ret) p2 w).
Proof.
  assert (Hfalse : forall l : list (step W),
             Forall (fun st => who st = false) l ->
             Forall (fun st => who st = true ->
                               what st = clk_get_rate (measure g)) l).
  { intros l H. eapply Forall_impl; [| exact H].
    intros st E1 E2. rewrite E1 in E2. discriminate E2. }
  induction s as [| x s IH]; intros p2 ret w.
  - cbn. apply Forall_app. split; [| apply Hfalse, solo_steps_who].
    unfold after_reparent. destruct (ret =? 0); cbn; repeat constructor.
  - destruct x; cbn.
    + unfold after_reparent at 1. destruct (ret =? 0) eqn:E.
      * constructor; [reflexivity | apply Hfalse, steps_first_returned].
      * apply Hfalse.
        replace (after_reparent ret) with (@Ret (Z * Z) (ret, v))
          by (unfold after_reparent; rewrite E; reflexivity).
        apply steps_first_returned.
    + destruct p2 as [b | e | c k]; try apply IH.
      constructor; [intro E; discriminate E | apply IH].
Qed.

Lemma steps_first_read_is_next {B : Type} (s : list bool) :
  forall (p2 : prog B) (ret : Z) (w wb : W) (c : call) (post : list (step W)),
  steps s (after_reparent ret) p2 w
    = {| who := true; what := c; before := wb |} :: post ->
  wb = w /\
  fst (fst (interleave handle s (after_reparent ret) p2 w))
    = inr (0, fst (handle (clk_get_rate (measure g)) w)).
Proof.
  induction s as [| x s IH]; intros p2 ret w wb c post E.
  - cbn in E |- *. unfold after_reparent in *.
    destruct (Z.eqb_spec ret 0) as [E0 | E0]; cbn in E |- *.
    + injection E as _ Ew _. subst ret. auto.
    + match type of E with
      | solo_steps false p2 ?w1 = _ =>
        pose proof (solo_steps_who false p2 w1) as Hw
      end.
      rewrite E in Hw. inversion Hw as [| st' l' Hst Hl]. discriminate Hst.
  - destruct x; cbn in E |- *.
    + unfold after_reparent in E |- *.
      destruct (Z.eqb_spec ret 0) as [E0 | E0].
      * injection E as _ Ew _. subst ret.
        rewrite interleave_left_done. cbn. auto.
      * pose proof (steps_first_returned s (ret, v) p2 w) as Hw.
        rewrite E in Hw.
        inversion Hw as [| st' l' Hst Hl]. discriminate Hst.
    + destruct p2 as [b | e | c2 k]; try (apply (IH _ _ _ _ _ _ E)).
      discriminate E.
Qed.

(** The same for a request run as the first thread. *)
Lemma measure_first_adjacent {B : Type} (s : list bool) :
  forall (p2 : prog B) (w wa wb : W) (pre post : list (step W)),
  steps s (clock_debug_measure_get g t v) p2 w
    = pre
      ++ {| who := true; what := clk_set_parent (measure g) t; before := wa |}
      :: {| who := true; what := clk_get_rate (measure g); before := wb |}
      :: post ->
  wb = snd (handle (clk_set_parent (measure g) t) wa) /\
  fst (fst (interleave handle s (clock_debug_measure_get g t v) p2 w))
    = inr (0, fst (handle (clk_get_rate (measure g)) wb)).
Proof.
  rewrite clock_debug_measure_get_steps.
  assert (Hgo : forall (s' : list bool) (p2 : prog B) (w wa wb : W)
                       (pre post : list (step W)),
             {| who := true; what := clk_set_parent (measure g) t; before := w |}
               :: steps s' (after_reparent
                              (fst (handle (clk_set_parent (measure g) t) w)))
                    p2 (snd (handle (clk_set_parent (measure g) t) w))
             = pre
               ++ {| who := true; what := clk_set_parent (measure g) t;
                     before := wa |}
               :: {| who := true; what := clk_get_rate (measure g);
                     before := wb |}
               :: post ->
             wb = snd (handle (clk_set_parent (measure g) t) wa) /\
             fst (fst (interleave handle s'
                         (after_reparent
                            (fst (handle (clk_set_parent (measure g) t) w)))
                         p2 (snd (handle (clk_set_parent (measure g) t) w))))
               = inr (0, fst (handle (clk_get_rate (measure g)) wb))).
  { intros s' p2 w wa wb pre post E.
    destruct pre as [| st pre]; cbn in E.
    - injection E as Ew E. subst wa.
      destruct (steps_first_read_is_next s' p2 _ _ _ _ _ E) as [Hb Hr].
      subst wb. split; [reflexivity | exact Hr].
    - injection E as _ E.
      match type of E with
      | ?l = _ =>
        assert (Hall : Forall (fun st => who st = true ->
                                         what st = clk_get_rate (measure g)) l)
          by apply steps_first_after_reparent
      end.
      rewrite E in Hall. apply Forall_app in Hall. destruct Hall as [_ Hall].
      inversion Hall as [| st' l' Hst Hl]; subst st' l'.
      cbn in Hst. specialize (Hst eq_refl). discriminate Hst. }
  induction s as [| x s IH]; intros p2 w wa wb pre post E.
  - apply (Hgo [] p2 w wa wb pre post). exact E.
  - destruct x; cbn [steps interleave] in E |- *.
    + apply (Hgo s p2 w wa wb pre post). exact E.
    + destruct p2 as [b | e | c k]; try (apply (IH _ _ _ _ _ _ E)).
      destruct pre as [| st pre]; cbn in E; [discriminate E |].
      injection E as _ E. apply (IH _ _ _ _ _ _ E).
Qed.

End Steps.

Arguments solo_steps {W} handle {R} id p w.
Arguments steps {W} handle {A B} sched p1 p2 w.

(** C6 (amended).  The file takes no lock, so what a measure request
    returns depends on the order of the calls.  On every schedule, beside
    any other thread, a request whose reparent and read are next to each
    other in the order of calls makes its read in the state its own
    reparent left and returns 0 with the rate that read returned; this as
    the second thread and as the first.  In particular a request whose two
    calls are the first two turns of the schedule returns what the state it
    starts in gives: the rate read after its own reparent, or the status of
    a reparent that failed with the value untouched. *)
Theorem measure_adjacent_calls_read_own_target :
  forall (W : Type) (handle : forall c : call, W -> ans c * W)
         (g : globals) (t : clk) (v : Z),
  let m := clock_debug_measure_get g t v in
  let reparent := clk_set_parent (measure g) t in
  let read := clk_get_rate (measure g) in
  let alone (w : W) : Z * Z :=
    let sp : Z * W := handle reparent w in
    let rd : Z * W := handle read (snd sp) in
    if fst sp =? 0 then (0, fst rd) else (fst sp, v) in
  (forall (A : Type) (p1 : prog A) (sched : list bool) (w wa wb : W)
          (pre post : list (step W)),
     steps handle sched p1 m w
       = pre ++ {| who := false; what := reparent; before := wa |}
             :: {| who := false; what := read; before := wb |} :: post ->
     wb = snd (handle reparent wa) /\
     snd (fst (interleave handle sched p1 m w)) = inr (0, fst (handle read wb))) /\
  (forall (B : Type) (p2 : prog B) (sched : list bool) (w wa wb : W)
          (pre post : list (step W)),
     steps handle sched m p2 w
       = pre ++ {| who := true; what := reparent; before := wa |}
             :: {| who := true; what := read; before := wb |} :: post ->
     wb = snd (handle reparent wa) /\
     fst (fst (interleave handle sched m p2 w)) = inr (0, fst (handle read wb))) /\
  (forall (A : Type) (p1 : prog A) (s : list bool) (w : W),
     snd (fst (interleave handle (false :: false :: s) p1 m w)) = inr (alone w)) /\
  (forall (B : Type) (p2 : prog B) (s : list bool) (w : W),
     fst (fst (interleave handle (true :: true :: s) m p2 w)) = inr (alone w)).
Proof.
  intros W handle g t v m reparent read alone.
  assert (Halone : forall w, outcome (exec handle m w) = inr (alone w)).
  { intro w. subst m alone reparent read. cbv beta zeta.
    unfold clock_debug_measure_get. cbn. unfold ans.
    match goal with
    | |- context [?ret =? 0] => destruct (Z.eqb_spec ret 0) as [E | E]
    end; cbn; [rewrite E |]; reflexivity. }
  repeat split.
  - apply (measure_second_adjacent W handle g t v sched p1 w wa wb pre post H).
  - apply (measure_second_adjacent W handle g t v sched p1 w wa wb pre post H).
  - apply (measure_first_adjacent W handle g t v sched p2 w wa wb pre post H).
  - apply (measure_first_adjacent W handle g t v sched p2 w wa wb pre post H).
  - intros A p1 s w. unfold m in *.
    rewrite then_measure_first. cbn [fst snd]. apply Halone.
  - intros B p2 s w. unfold m in *.
    rewrite measure_first_then. cbn [fst snd]. apply Halone.
Qed.

(** The schedule first, second, second, first: the second reader's two
    calls come between those of the first, next to each other, and it
    reads the rate of its own target. *)
Lemma measure_adjacent_calls_read_own_target_witness :
  let g := fst (Sim.after_init Sim.w0) in
  let w := snd (Sim.after_init Sim.w0) in
  snd (fst (interleave Sim.handle [true; false; false; true]
              (clock_debug_measure_get g Sim.uart1_clk 0)
              (clock_debug_measure_get g Sim.gp_clk 0) w))
  = inr (0, 200).
Proof.
  refine (proj2 (proj1 (measure_adjacent_calls_read_own_target Sim.world
                          Sim.handle (fst (Sim.after_init Sim.w0)) Sim.gp_clk 0)
                   (Z * Z)%type
                   (clock_debug_measure_get (fst (Sim.after_init Sim.w0))
                      Sim.uart1_clk 0)
                   [true; false; false; true]
                   (snd (Sim.after_init Sim.w0))
                   (Sim.with_parent (snd (Sim.after_init Sim.w0))
                      (Some "uart1_clk"))
                   (Sim.with_parent
                      (Sim.with_parent (snd (Sim.after_init Sim.w0))
                         (Some "uart1_clk"))
                      (Some "gp_clk"))
                   [ {| who := true;
                        what := clk_set_parent (Some Sim.measure_clk) Sim.uart1_clk;
                        before := snd (Sim.after_init Sim.w0) |} ]
                   [ {| who := true;
                        what := clk_get_rate (Some Sim.measure_clk);
                        before := Sim.with_parent
                                    (Sim.with_parent (snd (Sim.after_init Sim.w0))
                                       (Some "uart1_clk"))
                                    (Some "gp_clk") |} ]
                   eq_refl)).
Defined.

(** ** The bounded report on the reference tree *)

(** Two clocks on: the report is their names with one comma between them
    and the count 2. *)
Example print_enabled_two_running :
  let g := fst (Sim.after_init Sim.w0) in
  let w := Sim.with_running (snd (Sim.after_init Sim.w0)) ["uart1_clk"; "gp_clk"] in
  let r := exec Sim.handle (clock_debug_print_enabled g) w in
  option_map cstring (match report_of r with inr b => b | inl _ => None end)
    = Some (Some "uart1_clk,gp_clk") /\
  last (calls r) (kzalloc 0)
    = printk (KERN_INFO ++ "enabled clk %d: %s" ++ nl)%string
        [arg_int 2; arg_str "uart1_clk,gp_clk"].
Proof. vm_compute. auto. Qed.

(** C2, on real clocks: every clock of the table registered and off. *)
Example print_enabled_all_off_stores_outside :
  let g := fst (Sim.after_init Sim.w0) in
  let w := snd (Sim.after_init Sim.w0) in
  option_map (@List.length ascii) (msm_enabled g) = Some 1024%nat /\
  outcome (exec Sim.handle (clock_debug_print_enabled g) w)
    = inl (OutOfBounds 4294967295).
Proof. vm_compute. auto. Qed.

Definition two_digits (n : nat) : string :=
  String (ascii_of_nat (48 + n / 10))
    (String (ascii_of_nat (48 + n mod 10)) EmptyString).

(** 41 clocks with names of 24 characters, all on. *)
Definition long_names : list string :=
  map (fun n => ("long_debug_clock_name_" ++ two_digits n)%string) (seq 0 41).

Definition long_table : list clk_lookup :=
  map (fun n => Sim.entry (Some (Sim.mk n 0))) long_names.

(** C2, at the other end: after 40 names [size] is exactly 1000, the test
    [size > 1000] lets the scan go on, and the 41st name is stored at
    offsets 1000 to 1025 of the 1024 bytes. *)
Example print_enabled_long_names_overrun :
  let g := {| measure := None; debugfs_base := None;
              msm_clocks := long_table;
              msm_enabled := Some (repeat zero 1024) |} in
  let w := Sim.with_running Sim.w0 long_names in
  outcome (exec Sim.handle (clock_debug_print_enabled g) w)
    = inl (OutOfBounds 1024).
Proof. vm_compute. reflexivity. Qed.

(** * Further properties of the file *)

(** ** Runs with the answers *)

(** A call together with what it returned. *)
Definition event : Type := { c : call & ans c }.

Definition ev (c : call) (a : ans c) : event := existT ans c a.

Definition event_call (e : event) : call := projT1 e.

Section History.

Variable W : Type.
Variable handle : forall c : call, W -> ans c * W.

(** The calls of a run, each with its answer. *)
Fixpoint history {R : Type} (p : prog R) (w : W) : list event :=
  match p with
  | Ret _ => []
  | Oops _ => []
  | Vis c k =>
    let aw := handle c w in
    ev c (fst aw) :: history (k (fst aw)) (snd aw)
  end.

Lemma history_calls {R : Type} (p : prog R) (w : W) :
  map event_call (history p w) = calls (exec handle p w).
Proof.
  revert w.
  induction p as [a | e | c k IH]; intro w; cbn; [reflexivity .. |].
  rewrite IH. reflexivity.
Qed.

(** [along Q pre p]: on every path of [p], whatever the calls return, the
    calls and answers made so far (after [pre]) and the way the path ends
    satisfy [Q]. *)
Fixpoint along {R : Type} (Q : list event -> fault + R -> Prop)
  (pre : list event) (p : prog R) : Prop :=
  match p with
  | Ret r => Q pre (inr r)
  | Oops f => Q pre (inl f)
  | Vis c k => forall a : ans c, along Q (pre ++ [ev c a]) (k a)
  end.

Lemma along_run {R : Type} (Q : list event -> fault + R -> Prop) (p : prog R) :
  forall (pre : list event) (w : W),
  along Q pre p ->
  Q (pre ++ history p w) (outcome (exec handle p w)).
Proof.
  induction p as [a | e | c k IH]; intros pre w H; cbn in *.
  - rewrite app_nil_r. exact H.
  - rewrite app_nil_r. exact H.
  - specialize (IH _ _ (snd (handle c w)) (H (fst (handle c w)))).
    rewrite <- app_assoc in IH. exact IH.
Qed.

End History.

Arguments history {W} handle {R} p w.

(** ** Registration: what a call of [clock_debug_add] leaves behind *)

(** The name of the file a call created, when it is a
    [debugfs_create_file] that did not return null. *)
Definition created_file (e : event) : option string :=
  match e with
  | existT _ c a =>
    match c as c0 return ans c0 -> option string with
    | debugfs_create_file name _ _ _ _ =>
      fun d => match d with Some _ => Some name | None => None end
    | _ => fun _ => None
    end a
  end.

Fixpoint created_files (h : list event) : list string :=
  match h with
  | [] => []
  | e :: t =>
    match created_file e with
    | Some n => n :: created_files t
    | None => created_files t
    end
  end.

(** A [clk_set_parent] that returned 0. *)
Definition routed (e : event) : bool :=
  match e with
  | existT _ c a =>
    match c as c0 return ans c0 -> bool with
    | clk_set_parent _ _ => fun ret => ret =? 0
    | _ => fun _ => false
    end a
  end.

Definition is_remove (c : call) : bool :=
  match c with debugfs_remove_recursive _ => true | _ => false end.

(** The path of a registration, one answer at a time. *)
Ltac walk_add :=
  repeat progress (cbn; intros;
          try match goal with
          | a : option dentry |- _ => destruct a
          | a : ans (debugfs_create_dir _ _) |- _ => destruct a
          | a : ans (debugfs_create_file _ _ _ _ _) |- _ => destruct a
          | a : ans (debugfs_remove_recursive _) |- _ => destruct a
          | |- context [?ret =? 0] => destruct (ret =? 0) eqn:?
          | |- context [match list_rate ?o with _ => _ end] =>
            destruct (list_rate o) eqn:?
          | |- context [match measure ?g with _ => _ end] =>
            destruct (measure g) eqn:?
          end).

(** X1.  Registration returns 0 or -ENOMEM and nothing else: the status of a
    failed reparent of the probe is never passed on.  It leaves defined
    behaviour only for a name of 49 characters or more, of which [strncpy]
    copies no NUL, and then before any call. *)
Theorem clock_debug_add_status :
  forall (W : Type) (handle : forall c : call, W -> ans c * W)
         (tolower : ascii -> ascii) (g : globals) (clock : clk) (w : W),
  let r := exec handle (clock_debug_add tolower g clock) w in
  match outcome r with
  | inr status => status = 0 \/ status = - ENOMEM
  | inl f =>
    f = Unterminated /\ calls r = [] /\
    49 <= Z.of_nat (String.length (dbg_name clock))
  end.
Proof.
  intros W handle tolower g clock w r.
  pose (Q := fun (h : list event) (o : fault + Z) =>
               match o with
               | inr status => status = 0 \/ status = - ENOMEM
               | inl f =>
                 f = Unterminated /\ h = [] /\
                 49 <= Z.of_nat (String.length (dbg_name clock))
               end).
  assert (H : along Q [] (clock_debug_add tolower g clock)).
  { unfold clock_debug_add, lowered_name.
    destruct (debugfs_base g) as [base |]; [| cbn; auto].
    destruct (Z.ltb_spec (Z.of_nat (String.length (dbg_name clock))) 49);
      [| cbn; auto].
    walk_add; auto. }
  apply (along_run W handle) with (w := w) in H.
  unfold Q in H. cbn [app] in H. subst r.
  destruct (outcome (exec handle (clock_debug_add tolower g clock) w))
    as [f | status]; [| exact H].
  destruct H as [Hf [Hh Hlen]].
  rewrite <- history_calls, Hh. auto.
Qed.

(** The directory a call created, when it is a [debugfs_create_dir] that
    did not return null. *)
Definition created_dir (e : event) : option dentry :=
  match e with
  | existT _ c a =>
    match c as c0 return ans c0 -> option dentry with
    | debugfs_create_dir _ _ => fun d => d
    | _ => fun _ => None
    end a
  end.

(** The reference tree with debugfs or the allocator out of memory for the
    calls that [refused] selects. *)
Definition null_answer (c : call) : option (ans c) :=
  match c as c0 return option (ans c0) with
  | debugfs_create_dir _ _ => Some None
  | debugfs_create_u32 _ _ _ => Some None
  | debugfs_create_file _ _ _ _ _ => Some None
  | kzalloc _ => Some false
  | _ => None
  end.

Definition refusing (refused : call -> bool) (c : call) (w : Sim.world)
  : ans c * Sim.world :=
  match (if refused c then null_answer c else None) with
  | Some a => (a, w)
  | None => Sim.handle c w
  end.

Definition creates_file (name : string) (c : call) : bool :=
  match c with
  | debugfs_create_file n _ _ _ _ => String.eqb n name
  | _ => false
  end.

(** X2.  A registration that returns 0 has created, in this order, the files
    rate, enable and is_local, then measure exactly when it reparented the
    probe with result 0, then list_rates exactly when the clock has a
    [list_rate] operation; and it has removed nothing. *)
Theorem clock_debug_add_endpoints :
  forall (W : Type) (handle : forall c : call, W -> ans c * W)
         (tolower : ascii -> ascii) (g : globals) (clock : clk) (w : W),
  let h := history handle (clock_debug_add tolower g clock) w in
  outcome (exec handle (clock_debug_add tolower g clock) w) = inr 0 ->
  created_files h
    = ["rate"; "enable"; "is_local"]
      ++ (if existsb routed h then ["measure"] else [])
      ++ (if is_null (list_rate (ops clock)) then [] else ["list_rates"]) /\
  existsb is_remove (map event_call h) = false.
Proof.
  intros W handle tolower g clock w h Hret.
  pose (Q := fun (h : list event) (o : fault + Z) =>
               o = inr 0 ->
               created_files h
                 = ["rate"; "enable"; "is_local"]
                   ++ (if existsb routed h then ["measure"] else [])
                   ++ (if is_null (list_rate (ops clock)) then []
                       else ["list_rates"]) /\
               existsb is_remove (map event_call h) = false).
  assert (H : along Q [] (clock_debug_add tolower g clock)).
  { unfold clock_debug_add, lowered_name.
    destruct (debugfs_base g) as [base |]; [| cbn; intro; discriminate].
    destruct (Z.of_nat (String.length (dbg_name clock)) <? 49);
      [| cbn; intro; discriminate].
    walk_add; unfold Q; intro Ho; try discriminate Ho; cbn;
      repeat match goal with
             | E : (?a =? 0) = _ |- _ => rewrite E; clear E
             end; cbn; auto. }
  apply (along_run W handle) with (w := w) in H.
  apply H, Hret.
Qed.

Lemma clock_debug_add_endpoints_witness :
  created_files
    (history Sim.handle
       (clock_debug_add Sim.tolower (fst (Sim.after_init Sim.w0)) Sim.uart1_clk)
       (snd (Sim.after_init Sim.w0)))
  = ["rate"; "enable"; "is_local"; "measure"].
Proof.
  exact (proj1 (clock_debug_add_endpoints Sim.world Sim.handle Sim.tolower
                  (fst (Sim.after_init Sim.w0)) Sim.uart1_clk
                  (snd (Sim.after_init Sim.w0)) eq_refl)).
Defined.

(** X3.  A registration that fails leaves nothing behind: when it returns a
    status other than 0 after it has created the clock's directory, its
    last call is the recursive removal of that directory. *)
Theorem clock_debug_add_rolls_back :
  forall (W : Type) (handle : forall c : call, W -> ans c * W)
         (tolower : ascii -> ascii) (g : globals) (clock : clk) (w : W)
         (status : Z) (dir : dentry),
  let r := exec handle (clock_debug_add tolower g clock) w in
  let h := history handle (clock_debug_add tolower g clock) w in
  outcome r = inr status ->
  status <> 0 ->
  In (Some dir) (map created_dir h) ->
  last (calls r) (kzalloc 0) = debugfs_remove_recursive dir.
Proof.
  intros W handle tolower g clock w status dir r h Hret Hst Hin.
  pose (Q := fun (h : list event) (o : fault + Z) =>
               o = inr status ->
               In (Some dir) (map created_dir h) ->
               last (map event_call h) (kzalloc 0)
                 = debugfs_remove_recursive dir).
  assert (H : along Q [] (clock_debug_add tolower g clock)).
  { unfold clock_debug_add, lowered_name.
    destruct (debugfs_base g) as [base |]; [| cbn; intros _ []].
    destruct (Z.of_nat (String.length (dbg_name clock)) <? 49);
      [| cbn; intros _ []].
    walk_add; unfold Q;
      try (intro E; injection E as E; exfalso; apply Hst; symmetry; exact E);
      intros _ Hd; cbn in Hd;
      repeat destruct Hd as [Hd | Hd];
      try discriminate Hd; try contradiction;
      injection Hd as Hd; subst; reflexivity. }
  apply (along_run W handle) with (w := w) in H.
  unfold Q in H. cbn [app] in H.
  rewrite history_calls in H.
  apply H; assumption.
Qed.

Lemma clock_debug_add_rolls_back_witness :
  let out_of_enable := refusing (creates_file "enable") in
  last (calls (exec out_of_enable
                 (clock_debug_add Sim.tolower (fst (Sim.after_init Sim.w0))
                    Sim.uart1_clk)
                 (snd (Sim.after_init Sim.w0))))
       (kzalloc 0)
  = debugfs_remove_recursive 4%N.
Proof.
  refine (clock_debug_add_rolls_back Sim.world
            (refusing (creates_file "enable")) Sim.tolower
            (fst (Sim.after_init Sim.w0)) Sim.uart1_clk
            (snd (Sim.after_init Sim.w0)) (- ENOMEM) 4%N eq_refl _ _).
  - discriminate.
  - cbn. auto.
Defined.

(** ** Initialisation *)

(** A creation of the root directory or of debug_suspend that returned
    null. *)
Definition refused_root (e : event) : bool :=
  match e with
  | existT _ c a =>
    match c as c0 return ans c0 -> bool with
    | debugfs_create_dir _ _ => is_null
    | debugfs_create_u32 _ _ _ => is_null
    | _ => fun _ => false
    end a
  end.

(** A [kzalloc] that returned null. *)
Definition alloc_failed (e : event) : bool :=
  match e with
  | existT _ c a =>
    match c as c0 return ans c0 -> bool with
    | kzalloc _ => negb
    | _ => fun _ => false
    end a
  end.

(** The errno a [clk_get_sys] returned as an [ERR_PTR]. *)
Definition lookup_errno (e : event) : option Z :=
  match e with
  | existT _ c a =>
    match c as c0 return ans c0 -> option Z with
    | clk_get_sys _ _ => fun p => match p with PtrErr n => Some n | PtrOk _ => None end
    | _ => fun _ => None
    end a
  end.

Fixpoint first_some {A B : Type} (f : A -> option B) (l : list A) : option B :=
  match l with
  | [] => None
  | x :: t => match f x with Some b => Some b | None => first_some f t end
  end.

Definition past_root (c : call) : bool :=
  match c with
  | clk_get_sys _ _ => true
  | debugfs_create_file _ _ _ _ _ => true
  | kzalloc _ => true
  | _ => false
  end.

Ltac walk_init :=
  repeat progress (cbn -[repeat to_int]; intros;
                   try match goal with
                       | a : ans _ |- _ => destruct a
                       | a : option dentry |- _ => destruct a
                       | a : clk_ptr |- _ => destruct a
                       | a : bool |- _ => destruct a
                       end).

(** X5.  When debugfs refuses the root directory or debug_suspend,
    initialisation returns -ENOMEM and goes no further: the registry, the
    probe and the buffer are as before, no clock is looked up, no file is
    created and nothing is allocated.  [debugfs_base] is whatever the
    creation of the root returned, so after a refusal of debug_suspend it
    still holds the root, which the last call has removed. *)
Theorem clock_debug_init_root_refused :
  forall (W : Type) (handle : forall c : call, W -> ans c * W)
         (g : globals) (clocks : list clk_lookup) (w : W),
  let r := exec handle (clock_debug_init g clocks) w in
  let h := history handle (clock_debug_init g clocks) w in
  existsb refused_root h = true ->
  exists g' : globals,
    outcome r = inr (- ENOMEM, g') /\
    measure g' = measure g /\
    msm_clocks g' = msm_clocks g /\
    msm_enabled g' = msm_enabled g /\
    debugfs_base g' = first_some created_dir h /\
    existsb past_root (calls r) = false /\
    (forall d, debugfs_base g' = Some d ->
               last (calls r) (kzalloc 0) = debugfs_remove_recursive d).
Proof.
  intros W handle g clocks w r h Href.
  pose (Q := fun (h : list event) (o : fault + Z * globals) =>
               existsb refused_root h = true ->
               exists g' : globals,
                 o = inr (- ENOMEM, g') /\
                 measure g' = measure g /\
                 msm_clocks g' = msm_clocks g /\
                 msm_enabled g' = msm_enabled g /\
                 debugfs_base g' = first_some created_dir h /\
                 existsb past_root (map event_call h) = false /\
                 (forall d, debugfs_base g' = Some d ->
                            last (map event_call h) (kzalloc 0)
                              = debugfs_remove_recursive d)).
  assert (H : along Q [] (clock_debug_init g clocks)).
  { unfold clock_debug_init. walk_init; unfold Q; cbn -[repeat to_int]; intros;
      try congruence;
      eexists; repeat split; cbn -[repeat to_int];
      try (intros d' E'; first [discriminate E' | injection E' as E']; subst);
      reflexivity. }
  apply (along_run W handle) with (w := w) in H.
  unfold Q in H. cbn [app] in H. rewrite history_calls in H.
  apply H, Href.
Qed.

Definition is_debug_suspend (c : call) : bool :=
  match c with debugfs_create_u32 _ _ _ => true | _ => false end.

Lemma clock_debug_init_root_refused_witness :
  exists g' : globals,
    outcome (exec (refusing is_debug_suspend)
               (clock_debug_init boot Sim.table) Sim.w0)
      = inr (- ENOMEM, g') /\
    debugfs_base g' = Some 1%N /\
    msm_clocks g' = [].
Proof.
  destruct (clock_debug_init_root_refused Sim.world
              (refusing is_debug_suspend) boot Sim.table Sim.w0 eq_refl)
    as [g' [Ho [_ [Hc [_ [Hb _]]]]]].
  exists g'. repeat split; assumption.
Defined.

(** X6.  When debugfs grants both, initialisation always runs to its end: it
    records the registry, creates showall and allocates the buffer.  Its
    status tells only how the lookup of the probe went (0, or the errno of
    the [ERR_PTR] as an int): neither a refused showall file nor a failed
    allocation shows in it; a failed allocation leaves [msm_enabled]
    null. *)
Theorem clock_debug_init_status_is_probe_lookup :
  forall (W : Type) (handle : forall c : call, W -> ans c * W)
         (g : globals) (clocks : list clk_lookup) (w : W),
  let r := exec handle (clock_debug_init g clocks) w in
  let h := history handle (clock_debug_init g clocks) w in
  existsb refused_root h = false ->
  exists (status : Z) (g' : globals),
    outcome r = inr (status, g') /\
    status = match first_some lookup_errno h with
             | Some n => to_int n
             | None => 0
             end /\
    (status <> 0 -> measure g' = None) /\
    msm_clocks g' = clocks /\
    debugfs_base g' = first_some created_dir h /\
    msm_enabled g' = (if existsb alloc_failed h then None
                      else Some (repeat zero 1024)) /\
    existsb (creates_file "showall") (calls r) = true.
Proof.
  intros W handle g clocks w r h Href.
  pose (Q := fun (h : list event) (o : fault + Z * globals) =>
               existsb refused_root h = false ->
               exists (status : Z) (g' : globals),
                 o = inr (status, g') /\
                 status = match first_some lookup_errno h with
                          | Some n => to_int n
                          | None => 0
                          end /\
                 (status <> 0 -> measure g' = None) /\
                 msm_clocks g' = clocks /\
                 debugfs_base g' = first_some created_dir h /\
                 msm_enabled g' = (if existsb alloc_failed h then None
                                   else Some (repeat zero 1024)) /\
                 existsb (creates_file "showall") (map event_call h) = true).
  assert (H : along Q [] (clock_debug_init g clocks)).
  { unfold clock_debug_init. walk_init; unfold Q; cbn -[repeat to_int];
      intros; try congruence;
      do 2 eexists; repeat split; cbn -[repeat to_int];
      try reflexivity; try (intro E'; exfalso; apply E'; reflexivity). }
  apply (along_run W handle) with (w := w) in H.
  unfold Q in H. cbn [app] in H. rewrite history_calls in H.
  apply H, Href.
Qed.

Lemma clock_debug_init_status_is_probe_lookup_witness :
  exists g' : globals,
    outcome (exec Sim.handle (clock_debug_init boot Sim.table) Sim.w0_no_probe)
      = inr (- Sim.ENOENT, g') /\
    msm_clocks g' = Sim.table.
Proof.
  destruct (clock_debug_init_status_is_probe_lookup Sim.world Sim.handle
              boot Sim.table Sim.w0_no_probe eq_refl)
    as [status [g' [Ho [Hs [_ [Hc _]]]]]].
  exists g'. split; [| exact Hc].
  rewrite Ho, Hs. reflexivity.
Defined.

(** X7.  After an initialisation that removed the root (debug_suspend was
    refused), [debugfs_base] is not null: a registration does not stop at
    its test of [debugfs_base], and its first call creates the clock's
    directory under the removed root. *)
Theorem registration_under_removed_root :
  forall (W : Type) (handle : forall c : call, W -> ans c * W)
         (tolower : ascii -> ascii) (g : globals) (clocks : list clk_lookup)
         (w w' : W) (status : Z) (g' : globals) (d : dentry) (clock : clk),
  let r := exec handle (clock_debug_init g clocks) w in
  outcome r = inr (status, g') ->
  In (debugfs_remove_recursive d) (calls r) ->
  Z.of_nat (String.length (dbg_name clock)) < 49 ->
  hd (kzalloc 0) (calls (exec handle (clock_debug_add tolower g' clock) w'))
  = debugfs_create_dir (string_map tolower (dbg_name clock)) (Some d).
Proof.
  intros W handle tolower g clocks w w' status g' d clock r Hret Hin Hlen.
  assert (Hbase : debugfs_base g' = Some d).
  { pose (Q := fun (h : list event) (o : fault + Z * globals) =>
                 o = inr (status, g') ->
                 In (debugfs_remove_recursive d) (map event_call h) ->
                 debugfs_base g' = Some d).
    assert (H : along Q [] (clock_debug_init g clocks)).
    { unfold clock_debug_init. walk_init; unfold Q; cbn -[repeat to_int];
        intros Ho Hd;
        repeat destruct Hd as [Hd | Hd];
        try discriminate Hd; try contradiction.
      injection Hd as Hd. injection Ho as _ Ho. subst. reflexivity. }
    apply (along_run W handle) with (w := w) in H.
    unfold Q in H. cbn [app] in H. rewrite history_calls in H.
    apply H; assumption. }
  unfold clock_debug_add, lowered_name. rewrite Hbase.
  apply Z.ltb_lt in Hlen. rewrite Hlen. reflexivity.
Qed.

Lemma registration_under_removed_root_witness :
  hd (kzalloc 0)
     (calls (exec (refusing is_debug_suspend)
               (clock_debug_add Sim.tolower
                  {| measure := None; debugfs_base := Some 1%N;
                     msm_clocks := []; msm_enabled := None |}
                  Sim.uart1_clk)
               Sim.w0))
  = debugfs_create_dir "uart1_clk" (Some 1%N).
Proof.
  refine (registration_under_removed_root Sim.world
            (refusing is_debug_suspend) Sim.tolower boot Sim.table
            Sim.w0 Sim.w0 (- ENOMEM)
            {| measure := None; debugfs_base := Some 1%N;
               msm_clocks := []; msm_enabled := None |}
            1%N Sim.uart1_clk eq_refl _ _).
  - cbn. auto.
  - cbn. lia.
Defined.

(** ** The showall report: what is counted is what is logged *)

(** [subseq s l]: [s] is [l] with some elements left out. *)
Inductive subseq {A : Type} : list A -> list A -> Prop :=
| subseq_nil : subseq [] []
| subseq_skip (x : A) (s l : list A) : subseq s l -> subseq s (x :: l)
| subseq_take (x : A) (s l : list A) : subseq s l -> subseq (x :: s) (x :: l).

Lemma subseq_nil_l {A : Type} (l : list A) : subseq [] l.
Proof. induction l; constructor; assumption. Qed.

Lemma subseq_incl {A : Type} (s l : list A) : subseq s l -> incl s l.
Proof.
  induction 1 as [| x s l _ IH | x s l _ IH]; intros y Hy.
  - exact Hy.
  - right. apply IH, Hy.
  - destruct Hy as [Hy | Hy]; [left; exact Hy | right; apply IH, Hy].
Qed.

(** The names of the clocks of a registry, in its order. *)
Fixpoint clock_names (l : list clk_lookup) : list string :=
  match l with
  | [] => []
  | e :: t =>
    match lookup_clk e with
    | Some c => dbg_name c :: clock_names t
    | None => clock_names t
    end
  end.

(** The name a call logs, when it is the printk of one enabled clock. *)
Definition name_line (c : call) : option string :=
  match c with
  | printk fmt [arg_str s] =>
    if String.eqb fmt (KERN_INFO ++ tab ++ "%s" ++ nl)%string
    then Some s else None
  | _ => None
  end.

Fixpoint logged_names (cs : list call) : list string :=
  match cs with
  | [] => []
  | c :: t =>
    match name_line c with
    | Some s => s :: logged_names t
    | None => logged_names t
    end
  end.

Lemma logged_names_app (a b : list call) :
  logged_names (a ++ b) = logged_names a ++ logged_names b.
Proof.
  induction a as [| c a IH]; [reflexivity |].
  cbn. destruct (name_line c); cbn; rewrite IH; reflexivity.
Qed.

Lemma to_int_small (z : Z) : - 2 ^ 31 <= z < 2 ^ 31 -> to_int z = z.
Proof.
  intro H. unfold to_int, wrap.
  rewrite Z.mod_small; lia.
Qed.

Lemma to_unsigned_small (z : Z) : 0 <= z < 2 ^ 32 -> to_unsigned z = z.
Proof. intro H. unfold to_unsigned, wrap. apply Z.mod_small. exact H. Qed.

Section Showall.

Variable W : Type.
Variable handle : forall c : call, W -> ans c * W.

Lemma _clock_debug_print_enabled_loop_counts (l : list clk_lookup) :
  forall (cnt : Z) (w : W),
  0 <= cnt ->
  cnt + Z.of_nat (List.length l) < 2 ^ 31 ->
  let r := exec handle (_clock_debug_print_enabled_loop l cnt) w in
  subseq (logged_names (calls r)) (clock_names l) /\
  (forall cnt', outcome r = inr cnt' ->
                cnt' = cnt + Z.of_nat (List.length (logged_names (calls r)))).
Proof.
  induction l as [| e l IH]; intros cnt w H0 Hlen.
  - cbn. split; [constructor | intros cnt' E; injection E as E; lia].
  - cbn [List.length] in Hlen.
    rewrite _clock_debug_print_enabled_loop_cons. cbn [clock_names].
    destruct (lookup_clk e) as [c |]; cbn [clk_and_is_enabled].
    + destruct (is_enabled (ops c)) as [f |].
      * cbn -[_clock_debug_print_enabled_loop to_int].
        match goal with
        | |- context [negb (?ret =? 0)] => destruct (ret =? 0)
        end; cbn -[_clock_debug_print_enabled_loop to_int].
        -- destruct (IH cnt (snd (handle (ops_is_enabled f c) w)))
             as [Hs Hc]; [lia | lia |].
           split; [constructor; exact Hs | exact Hc].
        -- rewrite to_int_small by lia.
           match goal with
           | |- context [exec handle _ ?w1] =>
             destruct (IH (cnt + 1) w1) as [Hs Hc]; [lia | lia |]
           end.
           split; [constructor; exact Hs |].
           intros cnt' E. rewrite (Hc cnt' E). cbn [List.length]. lia.
      * cbn. split; [apply subseq_nil_l | intros cnt' E; discriminate E].
    + cbn [bind]. apply IH; lia.
Qed.

End Showall.

(** X9.  The showall attribute reads the number of names its run logged, and the
    names logged are names of clocks of the registry, in the order of the
    registry, each at most once per entry.  The run ends on the line with
    that count, or on the line that says no clocks are enabled when it is
    0.  (The counter is an int: the registry is taken shorter than 2^31
    entries.) *)
Theorem clock_showall_counts_logged_names :
  forall (W : Type) (handle : forall c : call, W -> ans c * W)
         (g : globals) (val : Z) (w : W),
  Z.of_nat (List.length (msm_clocks g)) < 2 ^ 31 ->
  let r := exec handle (clock_showall g val) w in
  let names := logged_names (calls r) in
  subseq names (clock_names (msm_clocks g)) /\
  (forall status v,
     outcome r = inr (status, v) ->
     status = 0 /\
     v = Z.of_nat (List.length names) /\
     last (calls r) (kzalloc 0)
       = (if v =? 0
          then printk (KERN_INFO ++ "No clocks enabled." ++ nl)%string []
          else printk (KERN_INFO ++ "Enabled clock count: %d" ++ nl)%string
                 [arg_int v])).
Proof.
  intros W handle g val w Hlen.
  unfold clock_showall, _clock_debug_print_enabled, pr_info.
  cbn -[_clock_debug_print_enabled_loop last].
  rewrite !exec_bind.
  match goal with
  | |- context [exec handle (_clock_debug_print_enabled_loop ?l 0) ?w1] =>
    destruct (_clock_debug_print_enabled_loop_counts W handle l 0 w1)
      as [Hs Hc]; [lia | lia |];
    destruct (exec handle (_clock_debug_print_enabled_loop l 0) w1)
      as [[f | cnt] w2 cs]
  end; cbn [outcome final calls] in *.
  - split; [exact Hs | intros status v E; discriminate E].
  - specialize (Hc cnt eq_refl). cbn zeta.
    assert (Hcnt : 0 <= cnt < 2 ^ 31).
    { pose proof (subseq_incl _ _ Hs) as Hi.
      assert (Hle : (List.length (logged_names cs)
                     <= List.length (msm_clocks g))%nat).
      { clear - Hs.
        assert (Hn : forall l, (List.length (clock_names l) <= List.length l)%nat).
        { induction l as [| e l IH]; cbn; [lia |].
          destruct (lookup_clk e); cbn; lia. }
        assert (Hq : forall (s l : list string),
                   subseq s l -> (List.length s <= List.length l)%nat).
        { induction 1; cbn; lia. }
        specialize (Hq _ _ Hs). specialize (Hn (msm_clocks g)). lia. }
      lia. }
    rewrite !exec_bind.
    destruct (Z.eqb_spec cnt 0) as [E0 | E0];
      cbn -[to_u64 last]; rewrite !logged_names_app; cbn -[to_u64 last];
      rewrite ?app_nil_r.
    + split; [exact Hs |].
      intros status v E. injection E as E1 E2. subst status v.
      unfold to_u64, wrap. rewrite Z.mod_small by lia.
      repeat split; try lia.
      rewrite E0. cbn -[last]. rewrite app_comm_cons, last_last. reflexivity.
    + split; [exact Hs |].
      intros status v E. injection E as E1 E2. subst status v.
      unfold to_u64, wrap. rewrite Z.mod_small by lia.
      repeat split; try lia.
      destruct (Z.eqb_spec cnt 0) as [E1 | _]; [contradiction |].
      rewrite app_comm_cons, last_last. reflexivity.
Qed.

Lemma clock_showall_counts_logged_names_witness :
  subseq
    (logged_names
       (calls (exec Sim.handle
                 (clock_showall (fst (Sim.after_init Sim.w0)) 0)
                 (Sim.with_running (snd (Sim.after_init Sim.w0))
                    ["uart1_clk"; "gp_clk"]))))
    (clock_names (msm_clocks (fst (Sim.after_init Sim.w0)))).
Proof.
  refine (proj1 (clock_showall_counts_logged_names Sim.world Sim.handle
                   (fst (Sim.after_init Sim.w0)) 0
                   (Sim.with_running (snd (Sim.after_init Sim.w0))
                      ["uart1_clk"; "gp_clk"]) _)).
  cbn. lia.
Defined.

(** ** The bounded report: the buffer as text *)

(** The characters of a string. *)
Abbreviation chars := list_ascii_of_string.

(** What the scan has put in the buffer after it has collected [names]:
    each name followed by a comma. *)
Fixpoint text (names : list string) : list ascii :=
  match names with
  | [] => []
  | n :: t => chars n ++ ","%char :: text t
  end.

(** The 1024 bytes of a buffer that starts with [t] and is 0 after it. *)
Definition padded (t : list ascii) : list ascii :=
  t ++ repeat zero (1024 - List.length t).

(** The locals of the scan when it has collected [names]. *)
Definition holds (st : scan) (names : list string) : Prop :=
  scan_buf st = padded (text names) /\
  scan_size st = Z.of_nat (List.length (text names)) /\
  scan_cnt st = Z.of_nat (List.length names).

Definition short_names (l : list clk_lookup) : Prop :=
  Forall (fun n => (String.length n <= 22)%nat) (clock_names l).

(** A C string holds no NUL. *)
Definition no_nul (s : string) : Prop := ~ In zero (chars s).

Lemma text_app (a b : list string) : text (a ++ b) = text a ++ text b.
Proof.
  induction a as [| n a IH]; [reflexivity |].
  cbn. rewrite IH, <- app_assoc. reflexivity.
Qed.

Lemma length_chars (s : string) : List.length (chars s) = String.length s.
Proof. induction s as [| a s IH]; cbn; [reflexivity | rewrite IH; reflexivity]. Qed.

Lemma chars_append (a b : string) : chars (a ++ b)%string = chars a ++ chars b.
Proof. induction a as [| x a IH]; cbn; [reflexivity | rewrite IH; reflexivity]. Qed.

Lemma length_text_ge (names : list string) :
  (List.length names <= List.length (text names))%nat.
Proof.
  induction names as [| n t IH]; cbn; [lia |].
  rewrite length_app. cbn. lia.
Qed.

Lemma poke_app (pre : list ascii) (x : ascii) (t : list ascii) (b : ascii) :
  poke (pre ++ x :: t) (List.length pre) b = pre ++ b :: t.
Proof.
  induction pre as [| p pre IH]; cbn; [reflexivity | rewrite IH; reflexivity].
Qed.

(** A store at the first 0 after the text. *)
Lemma store_after (pre : list ascii) (k : nat) (b : ascii) :
  store (pre ++ repeat zero (S k)) (Z.of_nat (List.length pre)) b
  = Ret (pre ++ b :: repeat zero k).
Proof.
  unfold store.
  rewrite length_app, repeat_length.
  replace ((0 <=? Z.of_nat (List.length pre))
           && (Z.of_nat (List.length pre)
               <? Z.of_nat (List.length pre + S k))) with true.
  - rewrite Nat2Z.id. cbn [repeat]. rewrite poke_app. reflexivity.
  - symmetry. apply andb_true_iff. split.
    + apply Z.leb_le. lia.
    + apply Z.ltb_lt. lia.
Qed.

Lemma store_bytes_after (bytes : list ascii) :
  forall (pre : list ascii) (k : nat),
  store_bytes (pre ++ repeat zero (List.length bytes + k))
    (Z.of_nat (List.length pre)) bytes
  = Ret (pre ++ bytes ++ repeat zero k).
Proof.
  induction bytes as [| b bs IH]; intros pre k.
  - reflexivity.
  - cbn [store_bytes List.length Nat.add].
    rewrite store_after. cbn [bind].
    replace (pre ++ b :: repeat zero (List.length bs + k))
      with ((pre ++ [b]) ++ repeat zero (List.length bs + k))
      by (rewrite <- app_assoc; reflexivity).
    replace (Z.of_nat (List.length pre) + 1)
      with (Z.of_nat (List.length (pre ++ [b])))
      by (rewrite length_app; cbn; lia).
    rewrite IH, <- app_assoc. reflexivity.
Qed.

(** The [snprintf] of the scan, for a name that fits: the name and a comma
    go after the text, the NUL that follows falls on a 0, and the result is
    the length of the name plus 2. *)
Lemma snprintf_name (pre : list ascii) (name : string) (k : nat) :
  (String.length name <= 1022)%nat ->
  snprintf (pre ++ repeat zero (String.length name + 2 + k))
    (Z.of_nat (List.length pre))
    (to_unsigned (strlen name + 2)) (name ++ ", ")%string
  = Ret (pre ++ chars name ++ ","%char :: repeat zero (S k),
         Z.of_nat (String.length name) + 2).
Proof.
  intro Hlen.
  unfold snprintf, strlen.
  rewrite (to_unsigned_small (Z.of_nat (String.length name)))
    by (change (2 ^ 32) with 4294967296; lia).
  rewrite to_unsigned_small by (change (2 ^ 32) with 4294967296; lia).
  replace (0 <? Z.of_nat (String.length name) + 2) with true
    by (symmetry; apply Z.ltb_lt; lia).
  replace (Z.to_nat (Z.of_nat (String.length name) + 2 - 1))
    with (String.length name + 1)%nat by lia.
  rewrite chars_append.
  rewrite firstn_app, length_chars.
  rewrite firstn_all2 by (rewrite length_chars; lia).
  replace (String.length name + 1 - String.length name)%nat with 1%nat by lia.
  cbn [chars firstn].
  replace (String.length name + 2 + k)%nat
    with (List.length ((chars name ++ [","%char]) ++ [zero]) + k)%nat
    by (rewrite !length_app, length_chars; cbn; lia).
  rewrite store_bytes_after. cbn [bind].
  rewrite <- (length_chars (name ++ ", ")), chars_append, length_app,
    length_chars.
  cbn [chars List.length].
  rewrite to_int_small by (change (2 ^ 31) with 2147483648; lia).
  f_equal. f_equal.
  - rewrite <- !app_assoc. reflexivity.
  - lia.
Qed.

Section Bounded.

Variable W : Type.
Variable handle : forall c : call, W -> ans c * W.

(** One more name collected. *)
Lemma holds_collect (names : list string) (name : string) (k : nat) :
  (List.length (text names) + String.length name + 2 + k = 1024)%nat ->
  holds {| scan_buf := text names ++ chars name ++ ","%char :: repeat zero (S k);
           scan_size := to_unsigned
                          (Z.of_nat (List.length (text names))
                           + to_unsigned (Z.of_nat (String.length name) + 2) - 1);
           scan_cnt := to_unsigned (Z.of_nat (List.length names) + 1) |}
        (names ++ [name]).
Proof.
  intro Hk.
  pose proof (length_text_ge names) as Hn.
  assert (Ht : text (names ++ [name]) = text names ++ chars name ++ [","%char]).
  { rewrite text_app. cbn. reflexivity. }
  assert (Hl : List.length (text (names ++ [name]))
               = (List.length (text names) + String.length name + 1)%nat).
  { rewrite Ht, !length_app, length_chars. cbn. lia. }
  unfold holds. cbn [scan_buf scan_size scan_cnt].
  repeat split.
  - unfold padded. rewrite Hl.
    replace (1024 - (List.length (text names) + String.length name + 1))%nat
      with (S k) by lia.
    rewrite Ht, <- !app_assoc. reflexivity.
  - rewrite Hl.
    rewrite (to_unsigned_small (Z.of_nat (String.length name) + 2))
      by (change (2 ^ 32) with 4294967296; lia).
    rewrite to_unsigned_small by (change (2 ^ 32) with 4294967296; lia).
    lia.
  - rewrite length_app. cbn [List.length].
    rewrite to_unsigned_small by (change (2 ^ 32) with 4294967296; lia).
    lia.
Qed.

(** The scan keeps the buffer a text of names: started with [names]
    collected and [size] at most 1000, on a registry whose names have at
    most 22 characters, it either calls through a null [is_enabled] or
    ends with [names] and some more names of the registry collected, in
    order, [size] at most 1023.  It makes no store outside the buffer. *)
Lemma clock_debug_print_enabled_loop_text (l : list clk_lookup) :
  forall (st : scan) (names : list string) (w : W),
  holds st names ->
  scan_size st <= 1000 ->
  short_names l ->
  match outcome (exec handle (clock_debug_print_enabled_loop l st) w) with
  | inl f => f = NullCall "is_enabled"
  | inr st' =>
    exists more : list string,
      subseq more (clock_names l) /\
      holds st' (names ++ more) /\
      scan_size st' <= 1023
  end.
Proof.
  induction l as [| e l IH]; intros st names w Hst Hsize Hshort.
  - cbn. exists []. rewrite app_nil_r.
    repeat split; [constructor | apply Hst .. | lia].
  - rewrite clock_debug_print_enabled_loop_cons.
    unfold short_names in Hshort. cbn [clock_names] in *.
    destruct (lookup_clk e) as [c |]; cbn [clk_and_is_enabled].
    + inversion Hshort as [| n ns Hc Hrest]; subst n ns.
      destruct (is_enabled (ops c)) as [f |]; [| reflexivity].
      cbn -[clock_debug_print_enabled_loop snprintf to_unsigned strlen].
      match goal with
      | |- context [negb (?ret =? 0)] => destruct (ret =? 0)
      end; cbn -[clock_debug_print_enabled_loop snprintf to_unsigned strlen].
      * destruct (Z.gtb_spec (scan_size st) 1000) as [Hgt | _]; [lia |].
        match goal with
        | |- context [exec handle _ ?w1] =>
          specialize (IH st names w1 Hst Hsize Hrest);
          destruct (outcome (exec handle (clock_debug_print_enabled_loop l st) w1))
            as [flt | st']
        end; [exact IH |].
        destruct IH as [more [Hsub [Hh Hs]]].
        exists more. repeat split; [constructor; exact Hsub | apply Hh .. | exact Hs].
      * destruct st as [buf size cnt].
        destruct Hst as [Hbuf [Hsz Hcnt]].
        cbn [scan_buf scan_size scan_cnt] in *. subst buf size cnt.
        pose proof (length_text_ge names) as Hn.
        unfold padded.
        replace (1024 - List.length (text names))%nat
          with (String.length (dbg_name c) + 2
                + (1022 - List.length (text names) - String.length (dbg_name c)))%nat
          by lia.
        rewrite snprintf_name by lia.
        cbn [bind fst snd].
        match goal with
        | |- context [clock_debug_print_enabled_loop l ?s1] =>
          remember s1 as s eqn:Es
        end.
        assert (Hnew : holds s (names ++ [dbg_name c]))
          by (subst s; apply holds_collect; lia).
        assert (Hbound : scan_size s <= 1023).
        { destruct Hnew as [_ [Hq _]].
          rewrite Hq, text_app, length_app. cbn [text].
          rewrite length_app, length_chars. cbn [List.length]. lia. }
        clear Es.
        destruct (Z.gtb_spec (scan_size s) 1000) as [Hgt | Hle].
        -- cbn. exists [dbg_name c].
           repeat split;
             [constructor; apply subseq_nil_l | apply Hnew .. | exact Hbound].
        -- match goal with
           | |- context [exec handle _ ?w1] =>
             specialize (IH s (names ++ [dbg_name c]) w1 Hnew Hle Hrest);
             destruct (outcome (exec handle (clock_debug_print_enabled_loop l s) w1))
               as [flt | st']
           end; [exact IH |].
           destruct IH as [more [Hsub [Hh Hs]]].
           exists (dbg_name c :: more).
           rewrite <- app_assoc in Hh. cbn [app] in Hh.
           repeat split; [constructor; exact Hsub | apply Hh .. | exact Hs].
    + cbn [bind].
      destruct (Z.gtb_spec (scan_size st) 1000) as [Hgt | _]; [lia |].
      apply IH; assumption.
Qed.

End Bounded.

Lemma memset_zero_whole (buf : list ascii) :
  List.length buf = 1024%nat -> memset_zero buf 1024 = repeat zero 1024.
Proof.
  intro H. unfold memset_zero.
  rewrite skipn_all2 by lia. apply app_nil_r.
Qed.

Lemma store_inside (pre : list ascii) (x : ascii) (rest : list ascii) (b : ascii) :
  store (pre ++ x :: rest) (Z.of_nat (List.length pre)) b = Ret (pre ++ b :: rest).
Proof.
  unfold store.
  rewrite length_app. cbn [List.length].
  replace ((0 <=? Z.of_nat (List.length pre))
           && (Z.of_nat (List.length pre)
               <? Z.of_nat (List.length pre + S (List.length rest)))) with true.
  - rewrite Nat2Z.id, poke_app. reflexivity.
  - symmetry. apply andb_true_iff. split.
    + apply Z.leb_le. lia.
    + apply Z.ltb_lt. lia.
Qed.

Lemma store_before_empty_text :
  store (padded (text [])) (to_unsigned (0 - 1)) zero
  = Oops (OutOfBounds 4294967295).
Proof. vm_compute. reflexivity. Qed.

Lemma holds_start : holds {| scan_buf := repeat zero 1024; scan_size := 0; scan_cnt := 0 |} [].
Proof. repeat split. Qed.

(** The text of the names collected is their comma-separated list, with one
    more comma. *)
Lemma text_concat (n : string) (names : list string) :
  text (n :: names) = chars (String.concat "," (n :: names)) ++ [","%char].
Proof.
  revert n.
  induction names as [| m names IH]; intro n.
  - reflexivity.
  - change (text (n :: m :: names)) with (chars n ++ ","%char :: text (m :: names)).
    change (String.concat "," (n :: m :: names))
      with (n ++ "," ++ String.concat "," (m :: names))%string.
    rewrite IH, !chars_append, <- app_assoc. reflexivity.
Qed.

Lemma in_text (a : ascii) (names : list string) :
  In a (text names) ->
  a = ","%char \/ exists n, In n names /\ In a (chars n).
Proof.
  induction names as [| n names IH]; cbn; [intros [] |].
  intro H. apply in_app_or in H. destruct H as [H | [H | H]].
  - right. exists n. auto.
  - left. symmetry. exact H.
  - destruct (IH H) as [E | [m [Hm Ha]]]; [left; exact E |].
    right. exists m. auto.
Qed.

Lemma cstring_until_zero (t rest : list ascii) :
  ~ In zero t ->
  cstring (t ++ zero :: rest) = Some (string_of_list_ascii t).
Proof.
  induction t as [| a t IH]; intro H.
  - reflexivity.
  - cbn [app cstring string_of_list_ascii].
    destruct (Ascii.eqb_spec a zero) as [E | _].
    + exfalso. apply H. left. exact E.
    + rewrite IH; [reflexivity |].
      intro Hin. apply H. right. exact Hin.
Qed.

(** The end of the bounded report, once the scan has returned with
    [names] collected: with no name the store that strips the last comma
    falls before the buffer; with some, the buffer reads as the names
    separated by commas and the last call logs their number and that
    text. *)
Lemma clock_debug_print_enabled_finish
  (W : Type) (handle : forall c : call, W -> ans c * W)
  (g : globals) (buf : list ascii) (w : W) (st : scan) (names : list string) :
  msm_enabled g = Some buf ->
  List.length buf = 1024%nat ->
  outcome (exec handle
             (clock_debug_print_enabled_loop (msm_clocks g)
                {| scan_buf := repeat zero 1024; scan_size := 0; scan_cnt := 0 |})
             w) = inr st ->
  holds st names ->
  Z.of_nat (List.length (text names)) <= 1023 ->
  Forall no_nul names ->
  let r := exec handle (clock_debug_print_enabled g) w in
  match names with
  | [] => outcome r = inl (OutOfBounds 4294967295)
  | _ :: _ =>
    exists g' : globals,
      outcome r = inr g' /\
      option_map cstring (msm_enabled g')
        = Some (Some (String.concat "," names)) /\
      last (calls r) (kzalloc 0)
        = printk (KERN_INFO ++ "enabled clk %d: %s" ++ nl)%string
            [arg_int (Z.of_nat (List.length names));
             arg_str (String.concat "," names)] /\
      measure g' = measure g /\
      debugfs_base g' = debugfs_base g /\
      msm_clocks g' = msm_clocks g
  end.
Proof.
  intros Hbuf Hlen Hout Hh Hsize Hnul.
  unfold clock_debug_print_enabled. rewrite Hbuf. cbv zeta.
  rewrite (memset_zero_whole buf Hlen).
  rewrite exec_bind.
  destruct (exec handle
              (clock_debug_print_enabled_loop (msm_clocks g)
                 {| scan_buf := repeat zero 1024; scan_size := 0; scan_cnt := 0 |})
              w) as [[f | st0] w1 cs]; cbn [outcome final calls] in *;
    [discriminate Hout |].
  injection Hout as Hout. subst st0. cbv zeta.
  destruct st as [sbuf size cnt]. destruct Hh as [Hb [Hs Hc]].
  cbn [scan_buf scan_size scan_cnt] in *. subst sbuf size cnt.
  rewrite exec_bind.
  destruct names as [| n names].
  - change (Z.of_nat (List.length (text []))) with 0.
    rewrite store_before_empty_text.
    reflexivity.
  - pose proof (length_text_ge (n :: names)) as Hge.
    assert (Ht : ~ In zero (chars (String.concat "," (n :: names)))).
    { intro Hin.
      assert (Hin' : In zero (text (n :: names))).
      { rewrite text_concat. apply in_or_app. left. exact Hin. }
      apply in_text in Hin'. destruct Hin' as [E | [m [Hm Hz]]].
      - discriminate E.
      - rewrite Forall_forall in Hnul. apply (Hnul m Hm). exact Hz. }
    rewrite text_concat in *.
    set (t := chars (String.concat "," (n :: names))) in *.
    rewrite length_app in *. cbn [List.length] in *.
    unfold padded. rewrite <- app_assoc. cbn [app].
    replace (to_unsigned (Z.of_nat (List.length t + 1) - 1))
      with (Z.of_nat (List.length t))
      by (rewrite to_unsigned_small;
          [lia | change (2 ^ 32) with 4294967296; lia]).
    rewrite store_inside.
    cbn [exec outcome final calls]. cbv zeta.
    rewrite exec_bind.
    replace (negb (Z.of_nat (S (List.length names)) =? 0)) with true
      by (symmetry; apply negb_true_iff, Z.eqb_neq; lia).
    rewrite (cstring_until_zero t _ Ht).
    unfold t at 1 2. rewrite string_of_list_ascii_of_string.
    rewrite to_int_small by (change (2 ^ 31) with 2147483648; lia).
    unfold pr_info.
    cbn [exec do outcome final calls msm_enabled measure debugfs_base
         msm_clocks option_map].
    eexists. split; [reflexivity |].
    cbn [msm_enabled measure debugfs_base msm_clocks option_map].
    repeat split.
    + rewrite (cstring_until_zero t _ Ht).
      unfold t. rewrite string_of_list_ascii_of_string. reflexivity.
    + cbn [app]. rewrite last_last.
      unfold t. rewrite string_of_list_ascii_of_string. reflexivity.
Qed.

(** X11.  The bounded report, on a registry whose names are C strings of at most
    22 characters, with its 1024 bytes allocated.  Its only ways out of
    defined behaviour are a clock with no [is_enabled] and the store before
    the buffer when nothing was collected.  Otherwise it has collected at
    least one name: the names are names of registry clocks in registry
    order, the buffer reads as these names separated by commas with no
    comma after the last, and the last call logs their number and that
    text.  The other statics are left as they were. *)
Theorem clock_debug_print_enabled_report :
  forall (W : Type) (handle : forall c : call, W -> ans c * W)
         (g : globals) (buf : list ascii) (w : W),
  msm_enabled g = Some buf ->
  List.length buf = 1024%nat ->
  short_names (msm_clocks g) ->
  Forall no_nul (clock_names (msm_clocks g)) ->
  let r := exec handle (clock_debug_print_enabled g) w in
  match outcome r with
  | inl f => f = NullCall "is_enabled" \/ f = OutOfBounds 4294967295
  | inr g' =>
    exists names : list string,
      names <> [] /\
      subseq names (clock_names (msm_clocks g)) /\
      option_map cstring (msm_enabled g')
        = Some (Some (String.concat "," names)) /\
      last (calls r) (kzalloc 0)
        = printk (KERN_INFO ++ "enabled clk %d: %s" ++ nl)%string
            [arg_int (Z.of_nat (List.length names));
             arg_str (String.concat "," names)] /\
      measure g' = measure g /\
      debugfs_base g' = debugfs_base g /\
      msm_clocks g' = msm_clocks g
  end.
Proof.
  intros W handle g buf w Hbuf Hlen Hshort Hnul r.
  pose proof (clock_debug_print_enabled_loop_text W handle (msm_clocks g)
                _ [] w holds_start ltac:(cbn [scan_size]; lia) Hshort) as Hscan.
  destruct (outcome
              (exec handle
                 (clock_debug_print_enabled_loop (msm_clocks g)
                    {| scan_buf := repeat zero 1024; scan_size := 0;
                       scan_cnt := 0 |}) w)) as [f | st] eqn:Hout.
  - subst r. unfold clock_debug_print_enabled. rewrite Hbuf. cbv zeta.
    rewrite (memset_zero_whole buf Hlen), exec_bind, Hout.
    left. exact Hscan.
  - destruct Hscan as [names [Hsub [Hh Hsize]]]. cbn [app] in Hh.
    assert (Hsz : Z.of_nat (List.length (text names)) <= 1023)
      by (destruct Hh as [_ [Hq _]]; rewrite <- Hq; exact Hsize).
    assert (Hnn : Forall no_nul names).
    { rewrite Forall_forall in *. intros m Hm.
      apply Hnul. apply (subseq_incl _ _ Hsub). exact Hm. }
    pose proof (clock_debug_print_enabled_finish W handle g buf w st names
                  Hbuf Hlen Hout Hh Hsz Hnn) as Hfin.
    cbv zeta in Hfin. fold r in Hfin.
    destruct names as [| n names].
    + rewrite Hfin. right. reflexivity.
    + destruct Hfin as [g' [Ho Hrest]]. rewrite Ho.
      exists (n :: names).
      split; [discriminate |]. split; [exact Hsub | exact Hrest].
Qed.

Lemma clock_debug_print_enabled_report_witness :
  let g := fst (Sim.after_init Sim.w0) in
  let w := Sim.with_running (snd (Sim.after_init Sim.w0)) ["uart1_clk"; "gp_clk"] in
  match outcome (exec Sim.handle (clock_debug_print_enabled g) w) with
  | inl f => f = NullCall "is_enabled" \/ f = OutOfBounds 4294967295
  | inr g' =>
    exists names : list string,
      names <> [] /\
      subseq names (clock_names (msm_clocks g)) /\
      option_map cstring (msm_enabled g')
        = Some (Some (String.concat "," names)) /\
      last (calls (exec Sim.handle (clock_debug_print_enabled g) w)) (kzalloc 0)
        = printk (KERN_INFO ++ "enabled clk %d: %s" ++ nl)%string
            [arg_int (Z.of_nat (List.length names));
             arg_str (String.concat "," names)] /\
      measure g' = measure g /\
      debugfs_base g' = debugfs_base g /\
      msm_clocks g' = msm_clocks g
  end.
Proof.
  refine (clock_debug_print_enabled_report Sim.world Sim.handle
            (fst (Sim.after_init Sim.w0)) (repeat zero 1024)
            (Sim.with_running (snd (Sim.after_init Sim.w0))
               ["uart1_clk"; "gp_clk"])
            eq_refl eq_refl _ _).
  - repeat constructor; cbn; lia.
  - repeat constructor; intro H; cbn in H;
      repeat destruct H as [H | H]; try discriminate H; contradiction.
Defined.

(** X13.  The bounded report starts from a cleared buffer: what the 1024 bytes
    held before (an earlier report, say) has no part in what it does. *)
Theorem clock_debug_print_enabled_forgets_buffer :
  forall (g : globals) (buf1 buf2 : list ascii),
  List.length buf1 = 1024%nat ->
  List.length buf2 = 1024%nat ->
  clock_debug_print_enabled
    {| measure := measure g; debugfs_base := debugfs_base g;
       msm_clocks := msm_clocks g; msm_enabled := Some buf1 |}
  = clock_debug_print_enabled
      {| measure := measure g; debugfs_base := debugfs_base g;
         msm_clocks := msm_clocks g; msm_enabled := Some buf2 |}.
Proof.
  intros g buf1 buf2 H1 H2.
  unfold clock_debug_print_enabled.
  cbn [msm_enabled msm_clocks measure debugfs_base].
  rewrite (memset_zero_whole buf1 H1), (memset_zero_whole buf2 H2).
  reflexivity.
Qed.

Lemma clock_debug_print_enabled_forgets_buffer_witness :
  clock_debug_print_enabled
    {| measure := None; debugfs_base := None;
       msm_clocks := Sim.table; msm_enabled := Some (repeat zero 1024) |}
  = clock_debug_print_enabled
      {| measure := None; debugfs_base := None;
         msm_clocks := Sim.table; msm_enabled := Some (repeat "x"%char 1024) |}.
Proof.
  exact (clock_debug_print_enabled_forgets_buffer
           (with_clocks boot Sim.table) (repeat zero 1024)
           (repeat "x"%char 1024) eq_refl eq_refl).
Defined.

(** ** What the reports call *)

Definition is_query_or_log (c : call) : Prop :=
  match c with
  | ops_is_enabled _ _ => True
  | printk _ _ => True
  | _ => False
  end.

(** X14.  The two reports and the showall attribute only query and log: every
    call they make is an [is_enabled] of a registry clock's operations or a
    printk.  They change no clock and create nothing. *)
Theorem reports_only_query_and_log :
  forall (W : Type) (handle : forall c : call, W -> ans c * W)
         (g : globals) (val : Z) (w : W),
  Forall is_query_or_log (calls (exec handle (_clock_debug_print_enabled g) w)) /\
  Forall is_query_or_log (calls (exec handle (clock_showall g val) w)) /\
  Forall is_query_or_log (calls (exec handle (clock_debug_print_enabled g) w)).
Proof.
  intros W handle g val w.
  repeat split; apply quiet_calls.
  - apply quiet__clock_debug_print_enabled; intros; exact I.
  - unfold clock_showall.
    apply quiet_bind; [| intro; exact I].
    apply quiet__clock_debug_print_enabled; intros; exact I.
  - apply quiet_clock_debug_print_enabled; intros; exact I.
Qed.

(** ** The rate attribute on a 32-bit target *)

(** X15.  The value written is a u64 and the rate the framework takes is an
    unsigned long: two values that differ by a multiple of 2^32 make
    exactly the same calls. *)
Theorem clock_debug_rate_set_truncates :
  forall (CLKFLAG_MIN CLKFLAG_MAX : Z) (clock : clk) (val n : Z),
  clock_debug_rate_set CLKFLAG_MIN CLKFLAG_MAX clock (val + n * 2 ^ 32)
  = clock_debug_rate_set CLKFLAG_MIN CLKFLAG_MAX clock val.
Proof.
  intros MIN MAX clock val n.
  unfold clock_debug_rate_set, to_ulong, wrap.
  rewrite Z_mod_plus_full. reflexivity.
Qed.

(** ** The enable attribute and the reports *)

(** X16.  For a clock that has [is_enabled], the enable attribute and the test of
    the reports make the same call, and the attribute reads a value other
    than 0 exactly when the reports take the clock as enabled.  (The
    operation returns an int.) *)
Theorem enable_get_agrees_with_reports :
  forall (W : Type) (handle : forall c : call, W -> ans c * W)
         (clock : clk) (f : fnptr) (val : Z) (w : W),
  is_enabled (ops clock) = Some f ->
  - 2 ^ 31 <= fst (handle (ops_is_enabled f clock) w) < 2 ^ 31 ->
  let r := exec handle (clock_debug_enable_get clock val) w in
  let t := exec handle (clk_and_is_enabled (Some clock)) w in
  exists v : Z,
    outcome r = inr (0, v) /\
    outcome t = inr (negb (v =? 0)) /\
    calls r = calls t /\
    final r = final t.
Proof.
  intros W handle clock f val w Hf Hint.
  unfold clock_debug_enable_get, clk_and_is_enabled. rewrite Hf.
  cbn. unfold ans in *.
  match goal with
  | |- context [to_u64 ?a] => exists (to_u64 a); set (x := a) in *
  end.
  repeat split.
  f_equal. f_equal.
  unfold to_u64, wrap.
  change (2 ^ 31) with 2147483648 in Hint.
  destruct (Z.eqb_spec x 0) as [E | E].
  - rewrite E. reflexivity.
  - symmetry. apply Z.eqb_neq. intro Hm.
    destruct (Z_lt_le_dec x 0) as [Hneg | Hpos].
    + pose proof (Z_mod_plus_full x 1 (2 ^ 64)) as Hy.
      rewrite Hm in Hy.
      rewrite Z.mod_small in Hy
        by (change (2 ^ 64) with 18446744073709551616; lia).
      change (2 ^ 64) with 18446744073709551616 in Hy. lia.
    + rewrite Z.mod_small in Hm
        by (change (2 ^ 64) with 18446744073709551616; lia).
      contradiction.
Qed.

Lemma enable_get_agrees_with_reports_witness :
  exists v : Z,
    outcome (exec Sim.handle (clock_debug_enable_get Sim.uart1_clk 0)
               (Sim.with_running Sim.w0 ["uart1_clk"]))
      = inr (0, v) /\
    outcome (exec Sim.handle (clk_and_is_enabled (Some Sim.uart1_clk))
               (Sim.with_running Sim.w0 ["uart1_clk"]))
      = inr (negb (v =? 0)).
Proof.
  destruct (enable_get_agrees_with_reports Sim.world Sim.handle Sim.uart1_clk
              "pc_clk_is_enabled" 0 (Sim.with_running Sim.w0 ["uart1_clk"])
              eq_refl ltac:(cbn; lia))
    as [v [H1 [H2 _]]].
  exists v. split; assumption.
Defined.

(** ** The list_rates file *)

(** The rate a call prints, when it is the [seq_printf] of one rate. *)
Definition rate_line (c : call) : option Z :=
  match c with
  | seq_printf fmt [arg_int r] =>
    if String.eqb fmt ("%d" ++ nl)%string then Some r else None
  | _ => None
  end.

Fixpoint printed_rates (cs : list call) : list Z :=
  match cs with
  | [] => []
  | c :: t =>
    match rate_line c with
    | Some r => r :: printed_rates t
    | None => printed_rates t
    end
  end.

Section ListRates.

Variable W : Type.
Variable handle : forall c : call, W -> ans c * W.
Variable clock : clk.
Variable f : fnptr.

(** The rate table of the clock: what its [list_rate] returns for each
    index, whatever the state. *)
Variable rate_at : Z -> Z.
Hypothesis list_rate_f : list_rate (ops clock) = Some f.
Hypothesis rate_at_answers :
  forall (n : Z) (w : W), fst (handle (ops_list_rate f clock n) w) = rate_at n.

Lemma list_rates_show_loop_enumerates (d : nat) :
  forall (i fuel : nat) (w : W),
  (forall j, (i <= j < i + d)%nat -> 0 <= rate_at (Z.of_nat j)) ->
  rate_at (Z.of_nat (i + d)) < 0 ->
  Z.of_nat (i + d) < 2 ^ 31 - 1 ->
  (d < fuel)%nat ->
  let r := exec handle (list_rates_show_loop fuel clock (Z.of_nat i)) w in
  outcome r = inr (Some 0) /\
  printed_rates (calls r) = map (fun j => rate_at (Z.of_nat j)) (seq i d).
Proof using list_rate_f rate_at_answers.
  assert (Ha : forall (n : Z) (w : W),
             @fst Z W (handle (ops_list_rate f clock n) w) = rate_at n)
    by exact rate_at_answers.
  induction d as [| d IH]; intros i fuel w Hpos Hneg Hint Hfuel;
    (destruct fuel as [| fuel]; [lia |]);
    cbn [list_rates_show_loop]; rewrite list_rate_f;
    cbn -[list_rates_show_loop to_int];
    rewrite Ha.
  - rewrite Nat.add_0_r in Hneg.
    replace (0 <=? rate_at (Z.of_nat i)) with false
      by (symmetry; apply Z.leb_gt; exact Hneg).
    cbn. auto.
  - replace (0 <=? rate_at (Z.of_nat i)) with true
      by (symmetry; apply Z.leb_le; apply Hpos; lia).
    cbn -[list_rates_show_loop to_int].
    rewrite to_int_small by (change (2 ^ 31) with 2147483648 in *; lia).
    replace (Z.of_nat i + 1) with (Z.of_nat (S i)) by lia.
    match goal with
    | |- context [exec handle _ ?w1] =>
      destruct (IH (S i) fuel w1) as [Ho Hp]
    end.
    + intros j Hj. apply Hpos. lia.
    + replace (S i + d)%nat with (i + S d)%nat by lia. exact Hneg.
    + replace (S i + d)%nat with (i + S d)%nat by lia. exact Hint.
    + lia.
    + split; [exact Ho |]. rewrite Hp. reflexivity.
Qed.

End ListRates.

(** X17.  Reading list_rates of a clock whose [list_rate] answers by a table,
    not negative below index [k] and negative at [k]: the loop asks for
    the indices 0, 1, ... in turn, prints the [k] rates below [k] in that
    order, stops at the first negative answer and returns 0.  (The index is
    an int; more than [k] iterations are followed.) *)
Theorem list_rates_show_enumerates :
  forall (W : Type) (handle : forall c : call, W -> ans c * W)
         (clock : clk) (f : fnptr) (rate_at : Z -> Z) (k fuel : nat) (w : W),
  list_rate (ops clock) = Some f ->
  (forall (n : Z) (w : W),
     fst (handle (ops_list_rate f clock n) w) = rate_at n) ->
  (forall j, (j < k)%nat -> 0 <= rate_at (Z.of_nat j)) ->
  rate_at (Z.of_nat k) < 0 ->
  Z.of_nat k < 2 ^ 31 - 1 ->
  (k < fuel)%nat ->
  let r := exec handle (list_rates_show fuel clock) w in
  outcome r = inr (Some 0) /\
  printed_rates (calls r) = map (fun j => rate_at (Z.of_nat j)) (seq 0 k).
Proof.
  intros W handle clock f rate_at k fuel w Hf Hans Hpos Hneg Hint Hfuel.
  unfold list_rates_show.
  apply (list_rates_show_loop_enumerates W handle clock f rate_at Hf Hans
           k 0 fuel w); try assumption.
  intros j Hj. apply Hpos. lia.
Qed.

(** A clock of the reference tree with a table of rates. *)
Definition gfx3d_clk : clk :=
  {| flags := 0;
     ops := {| is_enabled := Some "soc_clk_is_enabled";
               is_local := Some "soc_clk_is_local";
               list_rate := Some "soc_clk_list_rate" |};
     dbg_name := "gfx3d_clk";
     count := 0 |}.

Lemma list_rates_show_enumerates_witness :
  let r := exec Sim.handle (list_rates_show 10 gfx3d_clk) Sim.w0 in
  outcome r = inr (Some 0) /\
  printed_rates (calls r) = [1000; 2000; 3000].
Proof.
  refine (list_rates_show_enumerates Sim.world Sim.handle gfx3d_clk
            "soc_clk_list_rate"
            (fun n => if n <? 3 then 1000 * (n + 1) else - Sim.EINVAL)
            3 10 Sim.w0 eq_refl _ _ _ _ _).
  - intros n w. reflexivity.
  - intros j Hj. destruct j as [| [| [| j]]]; cbn; lia.
  - cbn. lia.
  - cbn. lia.
  - lia.
Defined.

(** ** The reports on a tree whose enabled states they do not disturb *)

(** The names of the registry clocks that [on] gives as enabled, in the
    order of the registry. *)
Fixpoint enabled_names (on : clk -> Z) (l : list clk_lookup) : list string :=
  match l with
  | [] => []
  | e :: t =>
    match lookup_clk e with
    | Some c =>
      if on c =? 0 then enabled_names on t
      else dbg_name c :: enabled_names on t
    | None => enabled_names on t
    end
  end.

(** Every clock of the registry has [is_enabled]. *)
Definition all_queryable (l : list clk_lookup) : Prop :=
  Forall (fun e => match lookup_clk e with
                   | Some c => is_enabled (ops c) <> None
                   | None => True
                   end) l.

Section Exact.

Variable W : Type.
Variable handle : forall c : call, W -> ans c * W.

(** [on w c]: what [is_enabled] returns for [c] in state [w]; a query or a
    printk does not change it. *)
Variable on : W -> clk -> Z.
Hypothesis on_answers :
  forall (f : fnptr) (c : clk) (w : W),
  @fst Z W (handle (ops_is_enabled f c) w) = on w c.
Hypothesis on_stable :
  forall (c' : call) (w : W) (c : clk),
  is_query_or_log c' -> on (snd (handle c' w)) c = on w c.

Lemma enabled_names_ext (on1 on2 : clk -> Z) (l : list clk_lookup) :
  (forall c, on1 c = on2 c) -> enabled_names on1 l = enabled_names on2 l.
Proof.
  intro H. induction l as [| e l IH]; cbn; [reflexivity |].
  destruct (lookup_clk e) as [c |]; [| exact IH].
  rewrite H, IH. reflexivity.
Qed.

Lemma _clock_debug_print_enabled_loop_exact (on0 : clk -> Z) (l : list clk_lookup) :
  forall (cnt : Z) (w : W),
  (forall c, on w c = on0 c) ->
  all_queryable l ->
  0 <= cnt ->
  cnt + Z.of_nat (List.length l) < 2 ^ 31 ->
  let r := exec handle (_clock_debug_print_enabled_loop l cnt) w in
  outcome r = inr (cnt + Z.of_nat (List.length (enabled_names on0 l))) /\
  logged_names (calls r) = enabled_names on0 l /\
  (forall c, on (final r) c = on0 c).
Proof using on_answers on_stable.
  induction l as [| e l IH]; intros cnt w Hon Hq H0 Hlen.
  - cbn. repeat split; [f_equal; lia | exact Hon].
  - cbn [List.length] in Hlen.
    inversion Hq as [| e' l' He Hl]; subst e' l'.
    rewrite _clock_debug_print_enabled_loop_cons. cbn [enabled_names].
    destruct (lookup_clk e) as [c |]; cbn [clk_and_is_enabled].
    + destruct (is_enabled (ops c)) as [f |]; [| contradiction].
      cbn -[_clock_debug_print_enabled_loop to_int].
      rewrite on_answers, Hon.
      assert (Hon1 : forall k, on (snd (handle (ops_is_enabled f c) w)) k = on0 k)
        by (intro k; rewrite on_stable; [apply Hon | exact I]).
      destruct (on0 c =? 0); cbn -[_clock_debug_print_enabled_loop to_int].
      * apply IH; [exact Hon1 | exact Hl | lia | lia].
      * rewrite to_int_small by lia.
        match goal with
        | |- context [exec handle _ ?w1] =>
          destruct (IH (cnt + 1) w1) as [Ho [Hn Hf]];
            [intro k; etransitivity;
               [apply (on_stable (printk _ _)); exact I | apply Hon1]
            | exact Hl | lia | lia |]
        end.
        rewrite Ho, Hn. cbn [List.length].
        repeat split; [f_equal; lia | exact Hf].
    + cbn [bind]. apply IH; [exact Hon | exact Hl | lia | lia].
Qed.

Lemma clock_debug_print_enabled_loop_exact (on0 : clk -> Z) (l : list clk_lookup) :
  forall (st : scan) (names : list string) (w : W),
  (forall c, on w c = on0 c) ->
  all_queryable l ->
  holds st names ->
  Z.of_nat (List.length (text names) + List.length (text (enabled_names on0 l)))
    <= 1000 ->
  exists st' : scan,
    outcome (exec handle (clock_debug_print_enabled_loop l st) w) = inr st' /\
    holds st' (names ++ enabled_names on0 l).
Proof using on_answers on_stable.
  induction l as [| e l IH]; intros st names w Hon Hq Hst Hfit.
  - cbn. exists st. rewrite app_nil_r. auto.
  - inversion Hq as [| e' l' He Hl]; subst e' l'.
    assert (Hsize : scan_size st <= 1000)
      by (destruct Hst as [_ [Hs _]]; rewrite Hs; lia).
    rewrite clock_debug_print_enabled_loop_cons.
    cbn [enabled_names] in *.
    destruct (lookup_clk e) as [c |]; cbn [clk_and_is_enabled].
    + destruct (is_enabled (ops c)) as [f |]; [| contradiction].
      cbn -[clock_debug_print_enabled_loop snprintf to_unsigned strlen].
      rewrite on_answers, Hon.
      assert (Hon1 : forall k, on (snd (handle (ops_is_enabled f c) w)) k = on0 k)
        by (intro k; rewrite on_stable; [apply Hon | exact I]).
      destruct (on0 c =? 0);
        cbn -[clock_debug_print_enabled_loop snprintf to_unsigned strlen].
      * destruct (Z.gtb_spec (scan_size st) 1000) as [Hgt | _]; [lia |].
        apply IH; assumption.
      * cbn [text] in Hfit. rewrite length_app in Hfit.
        cbn [List.length] in Hfit. rewrite length_chars in Hfit.
        destruct st as [buf size cnt].
        destruct Hst as [Hbuf [Hsz Hcnt]].
        cbn [scan_buf scan_size scan_cnt] in *. subst buf size cnt.
        unfold padded.
        replace (1024 - List.length (text names))%nat
          with (String.length (dbg_name c) + 2
                + (1022 - List.length (text names) - String.length (dbg_name c)))%nat
          by lia.
        rewrite snprintf_name by lia.
        cbn [bind fst snd].
        match goal with
        | |- context [clock_debug_print_enabled_loop l ?s1] =>
          remember s1 as s eqn:Es
        end.
        assert (Hnew : holds s (names ++ [dbg_name c]))
          by (subst s; apply holds_collect; lia).
        assert (Hlen' : List.length (text (names ++ [dbg_name c]))
                        = (List.length (text names)
                           + String.length (dbg_name c) + 1)%nat).
        { rewrite text_app, length_app. cbn [text].
          rewrite length_app, length_chars. cbn [List.length]. lia. }
        clear Es.
        destruct (Z.gtb_spec (scan_size s) 1000) as [Hgt | _].
        { destruct Hnew as [_ [Hs _]]. rewrite Hs, Hlen' in Hgt. lia. }
        destruct (IH s (names ++ [dbg_name c])
                    (snd (handle (ops_is_enabled f c) w)) Hon1 Hl Hnew)
          as [st' [Ho Hh]]; [rewrite Hlen'; lia |].
        exists st'. split; [exact Ho |].
        rewrite <- app_assoc in Hh. exact Hh.
    + cbn [bind].
      destruct (Z.gtb_spec (scan_size st) 1000) as [Hgt | _]; [lia |].
      apply IH; assumption.
Qed.

End Exact.

Lemma enabled_names_incl (on0 : clk -> Z) (l : list clk_lookup) :
  incl (enabled_names on0 l) (clock_names l).
Proof.
  induction l as [| e l IH]; cbn; [intros x [] |].
  destruct (lookup_clk e) as [c |]; [| exact IH].
  destruct (on0 c =? 0).
  - intros x Hx. right. apply IH, Hx.
  - intros x [Hx | Hx]; [left; exact Hx | right; apply IH, Hx].
Qed.

(** X10.  On a tree whose enabled states are not changed by asking for them or
    by logging, and a registry whose clocks all have [is_enabled], the
    showall attribute reads the number of enabled registry clocks, and the
    names it logs are exactly theirs, in the order of the registry. *)
Theorem clock_showall_exact :
  forall (W : Type) (handle : forall c : call, W -> ans c * W)
         (on : W -> clk -> Z) (g : globals) (val : Z) (w : W),
  (forall (f : fnptr) (c : clk) (w : W),
     @fst Z W (handle (ops_is_enabled f c) w) = on w c) ->
  (forall (c' : call) (w : W) (c : clk),
     is_query_or_log c' -> on (snd (handle c' w)) c = on w c) ->
  all_queryable (msm_clocks g) ->
  Z.of_nat (List.length (msm_clocks g)) < 2 ^ 31 ->
  let r := exec handle (clock_showall g val) w in
  let names := enabled_names (on w) (msm_clocks g) in
  outcome r = inr (0, Z.of_nat (List.length names)) /\
  logged_names (calls r) = names.
Proof.
  intros W handle on g val w Hans Hstable Hq Hlen.
  unfold clock_showall, _clock_debug_print_enabled, pr_info.
  cbn -[_clock_debug_print_enabled_loop].
  rewrite !exec_bind.
  match goal with
  | |- context [exec handle (_clock_debug_print_enabled_loop ?l 0) ?w1] =>
    destruct (_clock_debug_print_enabled_loop_exact W handle on Hans Hstable
                (on w) l 0 w1) as [Ho [Hn _]];
      [intro c; apply (Hstable (printk _ _)); exact I | exact Hq | lia | lia |];
    destruct (exec handle (_clock_debug_print_enabled_loop l 0) w1)
      as [[f | cnt] w2 cs]
  end; cbn [outcome final calls] in *; [discriminate Ho |].
  injection Ho as Ho. cbn zeta.
  rewrite !exec_bind.
  pose proof (enabled_names_incl (on w) (msm_clocks g)) as Hi.
  assert (Hcnt : 0 <= cnt < 2 ^ 31).
  { assert (Hle : forall (on0 : clk -> Z) (l : list clk_lookup),
               (List.length (enabled_names on0 l) <= List.length l)%nat).
    { intros on0 l. induction l as [| e l IH]; cbn; [lia |].
      destruct (lookup_clk e) as [c |]; [destruct (on0 c =? 0) |]; cbn; lia. }
    specialize (Hle (on w) (msm_clocks g)). lia. }
  destruct (negb (cnt =? 0)); cbn -[to_u64];
    rewrite !logged_names_app; cbn -[to_u64]; rewrite ?app_nil_r;
    unfold to_u64, wrap; rewrite Z.mod_small by lia;
    (split; [f_equal; f_equal; lia | exact Hn]).
Qed.

Definition sim_on (w : Sim.world) (c : clk) : Z :=
  if Sim.is_running w (dbg_name c) then 1 else 0.

Lemma sim_on_stable (c' : call) (w : Sim.world) (c : clk) :
  is_query_or_log c' -> sim_on (snd (Sim.handle c' w)) c = sim_on w c.
Proof. destruct c'; intros []; reflexivity. Defined.

Lemma sim_table_queryable : all_queryable Sim.table.
Proof. repeat constructor; discriminate. Defined.

Lemma clock_showall_exact_witness :
  let w := Sim.with_running Sim.w0 ["uart1_clk"; "gp_clk"] in
  let r := exec Sim.handle (clock_showall (with_clocks boot Sim.table) 0) w in
  outcome r = inr (0, 2) /\ logged_names (calls r) = ["uart1_clk"; "gp_clk"].
Proof.
  refine (clock_showall_exact Sim.world Sim.handle sim_on
            (with_clocks boot Sim.table) 0
            (Sim.with_running Sim.w0 ["uart1_clk"; "gp_clk"])
            _ sim_on_stable sim_table_queryable _).
  - intros f c w. reflexivity.
  - cbn. lia.
Defined.

(** X12.  On such a tree and registry, with names that are C strings and the
    text of the enabled names (a comma after each) no longer than 1000
    bytes, the bounded report is exact: with no clock enabled it stores
    before the buffer; otherwise it returns with the buffer reading as the
    names of the enabled registry clocks, in registry order, separated by
    commas, and its last call logs their number and that text. *)
Theorem clock_debug_print_enabled_exact :
  forall (W : Type) (handle : forall c : call, W -> ans c * W)
         (on : W -> clk -> Z) (g : globals) (buf : list ascii) (w : W),
  (forall (f : fnptr) (c : clk) (w : W),
     @fst Z W (handle (ops_is_enabled f c) w) = on w c) ->
  (forall (c' : call) (w : W) (c : clk),
     is_query_or_log c' -> on (snd (handle c' w)) c = on w c) ->
  msm_enabled g = Some buf ->
  List.length buf = 1024%nat ->
  all_queryable (msm_clocks g) ->
  Forall no_nul (clock_names (msm_clocks g)) ->
  Z.of_nat (List.length (text (enabled_names (on w) (msm_clocks g)))) <= 1000 ->
  let r := exec handle (clock_debug_print_enabled g) w in
  let names := enabled_names (on w) (msm_clocks g) in
  match names with
  | [] => outcome r = inl (OutOfBounds 4294967295)
  | _ :: _ =>
    exists g' : globals,
      outcome r = inr g' /\
      option_map cstring (msm_enabled g')
        = Some (Some (String.concat "," names)) /\
      last (calls r) (kzalloc 0)
        = printk (KERN_INFO ++ "enabled clk %d: %s" ++ nl)%string
            [arg_int (Z.of_nat (List.length names));
             arg_str (String.concat "," names)] /\
      measure g' = measure g /\
      debugfs_base g' = debugfs_base g /\
      msm_clocks g' = msm_clocks g
  end.
Proof.
  intros W handle on g buf w Hans Hstable Hbuf Hlen Hq Hnul Hfit r names.
  destruct (clock_debug_print_enabled_loop_exact W handle on Hans Hstable
              (on w) (msm_clocks g)
              {| scan_buf := repeat zero 1024; scan_size := 0; scan_cnt := 0 |}
              [] w (fun c => eq_refl) Hq holds_start)
    as [st [Ho Hh]]; [cbn [text List.length Nat.add]; exact Hfit |].
  cbn [app] in Hh.
  assert (Hnn : Forall no_nul names).
  { rewrite Forall_forall in *. intros m Hm.
    apply Hnul. apply (enabled_names_incl (on w) (msm_clocks g)). exact Hm. }
  apply (clock_debug_print_enabled_finish W handle g buf w st names
           Hbuf Hlen Ho Hh); [fold names in Hfit; lia | exact Hnn].
Qed.

Lemma clock_debug_print_enabled_exact_witness :
  let g := fst (Sim.after_init Sim.w0) in
  let w := Sim.with_running (snd (Sim.after_init Sim.w0)) ["uart1_clk"; "gp_clk"] in
  let r := exec Sim.handle (clock_debug_print_enabled g) w in
  exists g' : globals,
    outcome r = inr g' /\
    option_map cstring (msm_enabled g') = Some (Some "uart1_clk,gp_clk").
Proof.
  intros g w r.
  destruct (clock_debug_print_enabled_exact Sim.world Sim.handle sim_on g
              (repeat zero 1024) w (fun f c w => eq_refl) sim_on_stable
              eq_refl eq_refl sim_table_queryable)
    as [g' [Ho [Hc _]]].
  - repeat constructor; intro H; cbn in H;
      repeat destruct H as [H | H]; try discriminate H; contradiction.
  - cbn. lia.
  - exists g'. split; assumption.
Defined.

(** ** Initialisation without memory, then a report *)

Definition is_kzalloc (c : call) : bool :=
  match c with kzalloc _ => true | _ => false end.

(** X8.  A failed allocation of the buffer is not reported by the
    initialisation; it shows at the first bounded report, which then
    queries no clock: its one call logs that there is no memory, and it
    returns with the statics as they were. *)
Theorem report_after_failed_allocation :
  forall (W : Type) (handle : forall c : call, W -> ans c * W)
         (g : globals) (clocks : list clk_lookup) (w w' : W)
         (status : Z) (g' : globals),
  outcome (exec handle (clock_debug_init g clocks) w) = inr (status, g') ->
  existsb alloc_failed (history handle (clock_debug_init g clocks) w) = true ->
  let r := exec handle (clock_debug_print_enabled g') w' in
  outcome r = inr g' /\
  calls r = [printk (KERN_INFO ++ "[%s] No memory to debug clock" ++ nl)%string
               [arg_str "clock_debug_print_enabled"]].
Proof.
  intros W handle g clocks w w' status g' Hret Hfail.
  assert (Hnone : msm_enabled g' = None).
  { pose (Q := fun (h : list event) (o : fault + Z * globals) =>
                 o = inr (status, g') ->
                 existsb alloc_failed h = true ->
                 msm_enabled g' = None).
    assert (H : along Q [] (clock_debug_init g clocks)).
    { unfold clock_debug_init. walk_init; unfold Q; cbn -[repeat to_int];
        intros Ho Hf; try discriminate Hf;
        injection Ho as _ Ho; subst g'; reflexivity. }
    apply (along_run W handle) with (w := w) in H.
    unfold Q in H. cbn [app] in H.
    apply H; assumption. }
  unfold clock_debug_print_enabled. rewrite Hnone. cbn. auto.
Qed.

Lemma report_after_failed_allocation_witness :
  let g' := {| measure := Some Sim.measure_clk; debugfs_base := Some 1%N;
               msm_clocks := Sim.table; msm_enabled := None |} in
  let r := exec (refusing is_kzalloc) (clock_debug_print_enabled g') Sim.w0 in
  outcome r = inr g' /\
  calls r = [printk (KERN_INFO ++ "[%s] No memory to debug clock" ++ nl)%string
               [arg_str "clock_debug_print_enabled"]].
Proof.
  exact (report_after_failed_allocation Sim.world (refusing is_kzalloc)
           boot Sim.table Sim.w0 Sim.w0 0
           {| measure := Some Sim.measure_clk; debugfs_base := Some 1%N;
              msm_clocks := Sim.table; msm_enabled := None |}
           eq_refl eq_refl).
Defined.

(** ** Registration: where the files go *)

(** X4.  Every file a registration creates is made under the directory it has
    just created for the clock, and carries the clock as its data; no file
    is created before that directory exists. *)
Theorem clock_debug_add_files_belong_to_clock :
  forall (W : Type) (handle : forall c : call, W -> ans c * W)
         (tolower : ascii -> ascii) (g : globals) (clock : clk) (w : W),
  let h := history handle (clock_debug_add tolower g clock) w in
  Forall (fun c =>
            match c with
            | debugfs_create_file _ _ parent data _ =>
              parent <> None /\
              parent = first_some created_dir h /\
              data = Some clock
            | _ => True
            end)
         (calls (exec handle (clock_debug_add tolower g clock) w)).
Proof.
  intros W handle tolower g clock w h.
  pose (Q := fun (h : list event) (o : fault + Z) =>
               Forall (fun c =>
                         match c with
                         | debugfs_create_file _ _ parent data _ =>
                           parent <> None /\
                           parent = first_some created_dir h /\
                           data = Some clock
                         | _ => True
                         end)
                      (map event_call h)).
  assert (H : along Q [] (clock_debug_add tolower g clock)).
  { unfold clock_debug_add, lowered_name.
    destruct (debugfs_base g) as [base |]; [| cbn; constructor].
    destruct (Z.of_nat (String.length (dbg_name clock)) <? 49);
      [| cbn; constructor].
    walk_add; unfold Q; cbn;
      repeat constructor; discriminate. }
  apply (along_run W handle) with (w := w) in H.
  unfold Q in H. cbn [app] in H. rewrite history_calls in H.
  exact H.
Qed.

(** ** Measurement requests when no probe was resolved *)

Definition option_eqb {A : Type} (eqb : A -> A -> bool) (x y : option A) : bool :=
  match x, y with
  | Some a, Some b => eqb a b
  | None, None => true
  | _, _ => false
  end.

Definition clk_ops_eqb (a b : clk_ops) : bool :=
  option_eqb String.eqb (is_enabled a) (is_enabled b)
  && option_eqb String.eqb (is_local a) (is_local b)
  && option_eqb String.eqb (list_rate a) (list_rate b).

Definition clk_eqb (a b : clk) : bool :=
  (flags a =? flags b)
  && clk_ops_eqb (ops a) (ops b)
  && String.eqb (dbg_name a) (dbg_name b)
  && (count a =? count b).

(** Modelled from the spec: the ways a measurement request fails (section
    7).  The spec names none for a clock that was registered without a
    measure endpoint while the probe exists; it is [EndpointNotOffered]
    here. *)
Inductive MeasureError : Type :=
| ProbeUnavailable
| EndpointNotOffered
| ReparentFailed (status : Z).

(** Modelled from the spec: the caller that registers the clocks (clock.c,
    not in this file), one [clock_debug_add] per clock, going on after a
    registration that failed. *)
Fixpoint register_all (tolower : ascii -> ascii) (g : globals)
  (clocks : list clk) : prog (list Z) :=
  match clocks with
  | [] => Ret []
  | c :: rest =>
    status <- clock_debug_add tolower g c ;;
    others <- register_all tolower g rest ;;
    Ret (status :: others)
  end.

(** The directory in which a call created a measure file for [target]. *)
Definition measure_file_of (target : clk) (e : event) : option dentry :=
  match e with
  | existT _ c a =>
    match c as c0 return ans c0 -> option dentry with
    | debugfs_create_file _ _ parent data fops =>
      fun d =>
        match fops, parent, data, d with
        | clock_measure_fops, Some dir, Some c', Some _ =>
          if clk_eqb c' target then Some dir else None
        | _, _, _, _ => None
        end
    | _ => fun _ => None
    end a
  end.

Definition removes (dir : dentry) (e : event) : bool :=
  match event_call e with
  | debugfs_remove_recursive d => N.eqb d dir
  | _ => false
  end.

(** A measure file for [target] was created and its directory was not
    removed afterwards. *)
Fixpoint has_measure_endpoint (h : list event) (target : clk) : bool :=
  match h with
  | [] => false
  | e :: rest =>
    match measure_file_of target e with
    | Some dir => negb (existsb (removes dir) rest)
    | None => false
    end
    || has_measure_endpoint rest target
  end.

(** Modelled from the spec: the control plane's measure endpoint (debugfs
    and its simple-attribute read path, not in this file).  [registered]
    is what the registrations did.  A request for [target] reaches
    [clock_debug_measure_get] only through the measure file a registration
    created with [target] as its data; the rate is read out when the
    function returns 0.  With no such file the request fails before it
    reaches this file: with [ProbeUnavailable] when no probe was
    resolved. *)
Definition measure_request (g : globals) (registered : list event)
  (target : clk) (val : Z) : prog (MeasureError + Z) :=
  if has_measure_endpoint registered target
  then r <- clock_debug_measure_get g target val ;;
       Ret (if fst r =? 0 then inr (snd r) else inl (ReparentFailed (fst r)))
  else Ret (inl (if is_null (measure g) then ProbeUnavailable
                 else EndpointNotOffered)).

Definition no_reparent_no_measure_file (c : call) : Prop :=
  is_reparent c = false /\ is_measure_file c = false.

Lemma quiet_clock_debug_add_no_probe
  (tolower : ascii -> ascii) (g : globals) (clock : clk) :
  measure g = None ->
  quiet no_reparent_no_measure_file (clock_debug_add tolower g clock).
Proof.
  intro Hprobe.
  unfold clock_debug_add, lowered_name. rewrite Hprobe.
  quiet_auto.
Qed.

Lemma quiet_register_all_no_probe
  (tolower : ascii -> ascii) (g : globals) (clocks : list clk) :
  measure g = None ->
  quiet no_reparent_no_measure_file (register_all tolower g clocks).
Proof.
  intro Hprobe.
  induction clocks as [| c rest IH]; [exact I |].
  cbn [register_all].
  apply quiet_bind; [apply quiet_clock_debug_add_no_probe, Hprobe | intro status].
  apply quiet_bind; [exact IH | intro; exact I].
Qed.

Lemma no_measure_file_no_endpoint (h : list event) (target : clk) :
  Forall no_reparent_no_measure_file (map event_call h) ->
  has_measure_endpoint h target = false.
Proof.
  induction h as [| e rest IH]; intro H; [reflexivity |].
  inversion H as [| c l [_ Hc] Hl]; subst c l.
  cbn [has_measure_endpoint]. rewrite (IH Hl), orb_false_r.
  destruct e as [c a]. cbn in Hc |- *.
  destruct c; try reflexivity.
  destruct fops; try reflexivity.
  discriminate Hc.
Qed.

(** C4.  With no probe resolved ([measure] null, as initialisation leaves it
    when the lookup of the probe fails), whatever clocks are registered:
    the registrations never call [clk_set_parent] and create no measure
    file, and every measurement request after them, for every target and
    in every state, fails at once with [ProbeUnavailable], makes no call
    (so no reparenting attempt) and leaves the state as it was. *)
Theorem no_probe_measure_request_unavailable :
  forall (W : Type) (handle : forall c : call, W -> ans c * W)
         (tolower : ascii -> ascii) (g : globals) (clocks : list clk) (w : W),
  measure g = None ->
  let registration := register_all tolower g clocks in
  let registered := history handle registration w in
  Forall no_reparent_no_measure_file (calls (exec handle registration w)) /\
  forall (target : clk) (val : Z) (w' : W),
    exec handle (measure_request g registered target val) w'
    = {| outcome := inr (inl ProbeUnavailable); final := w'; calls := [] |}.
Proof.
  intros W handle tolower g clocks w Hprobe registration registered.
  assert (Hq : Forall no_reparent_no_measure_file
                 (calls (exec handle registration w)))
    by (apply quiet_calls, quiet_register_all_no_probe, Hprobe).
  split; [exact Hq |].
  intros target val w'.
  unfold measure_request.
  rewrite no_measure_file_no_endpoint
    by (unfold registered; rewrite history_calls; exact Hq).
  rewrite Hprobe. reflexivity.
Qed.

Lemma no_probe_measure_request_unavailable_witness :
  let g := fst (Sim.after_init Sim.w0_no_probe) in
  let w := snd (Sim.after_init Sim.w0_no_probe) in
  let registration :=
    register_all Sim.tolower g [Sim.uart1_clk; Sim.sdc1_clk; Sim.gp_clk] in
  exec Sim.handle
    (measure_request g (history Sim.handle registration w) Sim.uart1_clk 0)
    (final (exec Sim.handle registration w))
  = {| outcome := inr (inl ProbeUnavailable);
       final := final (exec Sim.handle registration w);
       calls := [] |}.
Proof.
  exact (proj2 (no_probe_measure_request_unavailable Sim.world Sim.handle
                  Sim.tolower (fst (Sim.after_init Sim.w0_no_probe))
                  [Sim.uart1_clk; Sim.sdc1_clk; Sim.gp_clk]
                  (snd (Sim.after_init Sim.w0_no_probe)) eq_refl)
           Sim.uart1_clk 0 _).
Defined.

(** With the probe there, the same request reaches the function: it
    reparents the probe and reads the rate of its target. *)
Example measure_request_with_probe :
  let g := fst (Sim.after_init Sim.w0) in
  let w := snd (Sim.after_init Sim.w0) in
  let registration :=
    register_all Sim.tolower g [Sim.uart1_clk; Sim.ebi1_clk; Sim.gp_clk] in
  let registered := history Sim.handle registration w in
  let w1 := final (exec Sim.handle registration w) in
  outcome (exec Sim.handle (measure_request g registered Sim.uart1_clk 0) w1)
    = inr (inr 100) /\
  outcome (exec Sim.handle (measure_request g registered Sim.ebi1_clk 0) w1)
    = inr (inl EndpointNotOffered).
Proof. vm_compute. auto. Qed.
